(** * Schema filter of the orchestrator tools

    A shallow embedding of [src/tools/orchestrator_get_schema_rules.py]:
    [filter_schema_for_id_workflows], [count_tokens_estimate] and the
    statistics block of [get_filtered_schema_rules].

    Python objects live in a store: a dict or a list is an object at a
    location, values held in containers are scalars or references.  The
    function under study copies its argument with
    [json.loads(json.dumps(...))] and then edits the copy in place, so the
    model keeps the store and the in-place updates explicit. *)

From Stdlib Require Import ZArith QArith Ascii String.
From stdpp Require Import base list strings relations.

Local Open Scope string_scope.
Local Open Scope list_scope.
Local Open Scope nat_scope.

#[local] Set Warnings "-register-all".

(** ** Documents *)

(** A JSON document, as [json.dumps] writes it and [json.loads] reads it.
    Object members are kept in order.  A float is carried by the literal
    [json.dumps] writes for it ([repr] round-trips through [float]); no
    arithmetic is done on document numbers. *)
Inductive json : Type :=
  | JNull
  | JBool (b : bool)
  | JInt (z : Z)
  | JFloat (lit : string)
  | JStr (s : string)
  | JArr (items : list json)
  | JObj (members : list (string * json)).

(** ** Python exceptions and results *)

Inductive exn : Type :=
  | TypeError
  | KeyError
  | ValueError
  | ZeroDivisionError
  | Dangling.  (* a reference to no object: never arises in Python *)

Inductive res (A : Type) : Type :=
  | Ok (a : A)
  | Raise (e : exn).
Arguments Ok {A} a.
Arguments Raise {A} e.

(** ** Dicts with string keys, in insertion order *)

Section dict.
Context {A : Type}.

Fixpoint dict_get (k : string) (kvs : list (string * A)) : option A :=
  match kvs with
  | [] => None
  | (k', v) :: rest => if String.eqb k k' then Some v else dict_get k rest
  end.

(* [k in d] *)
Definition dict_has (k : string) (kvs : list (string * A)) : bool :=
  match dict_get k kvs with Some _ => true | None => false end.

(* [del d[k]], for a key that is present *)
Fixpoint dict_del (k : string) (kvs : list (string * A)) : list (string * A) :=
  match kvs with
  | [] => []
  | (k', v) :: rest =>
      if String.eqb k k' then dict_del k rest else (k', v) :: dict_del k rest
  end.

Fixpoint dict_replace (k : string) (v : A) (kvs : list (string * A))
  : list (string * A) :=
  match kvs with
  | [] => []
  | (k', v') :: rest =>
      (k', if String.eqb k k' then v else v') :: dict_replace k v rest
  end.

(* [d[k] = v]: an existing key keeps its place, a new one goes last *)
Definition dict_set (k : string) (v : A) (kvs : list (string * A))
  : list (string * A) :=
  if dict_has k kvs then dict_replace k v kvs else kvs ++ [(k, v)].

(* [dict(pairs)], as [json.loads] builds an object *)
Definition dict_of_pairs (pairs : list (string * A)) : list (string * A) :=
  fold_left (λ acc kv, dict_set kv.1 kv.2 acc) pairs [].
End dict.

(** ** The store *)

Inductive val : Type :=
  | VNone
  | VBool (b : bool)
  | VInt (z : Z)
  | VFloat (lit : string)
  | VStr (s : string)
  | VRef (l : nat).

Inductive obj : Type :=
  | ODict (kvs : list (string * val))
  | OList (vs : list val).

(** Objects by location; allocation appends. *)
Abbreviation heap := (list obj).

(** Computations on the store that may raise; the store survives a raise. *)
Definition M (A : Type) : Type := heap → heap * res A.

Definition ret {A} (a : A) : M A := λ h, (h, Ok a).

Definition raise {A} (e : exn) : M A := λ h, (h, Raise e).

Definition bind {A B} (m : M A) (f : A → M B) : M B :=
  λ h, match m h with
       | (h', Ok a) => f a h'
       | (h', Raise e) => (h', Raise e)
       end.

Notation "'let!' x ':=' m 'in' k" := (bind m (λ x, k))
  (at level 10, x pattern, m at level 100, k at level 200).

Definition when (c : bool) (m : M unit) : M unit := if c then m else ret tt.

Definition alloc (o : obj) : M val := λ h, (h ++ [o], Ok (VRef (length h))).

(** ** Python operations used by the filter *)

(* [needle in s] on strings *)
Fixpoint is_substring (needle s : string) : bool :=
  String.prefix needle s ||
  match s with
  | EmptyString => false
  | String _ s' => is_substring needle s'
  end.

(* [needle == v] for a str needle *)
Definition val_is_str (needle : string) (v : val) : bool :=
  match v with VStr s => String.eqb needle s | _ => false end.

(* [needle in container] *)
Definition py_contains (needle : string) (container : val) : M bool := λ h,
  match container with
  | VStr s => (h, Ok (is_substring needle s))
  | VRef l =>
      match h !! l with
      | Some (ODict kvs) => (h, Ok (dict_has needle kvs))
      | Some (OList vs) => (h, Ok (existsb (val_is_str needle) vs))
      | None => (h, Raise Dangling)
      end
  | _ => (h, Raise TypeError)
  end.

(* [container[key]] for a str key *)
Definition py_getitem (container : val) (key : string) : M val := λ h,
  match container with
  | VRef l =>
      match h !! l with
      | Some (ODict kvs) =>
          match dict_get key kvs with
          | Some v => (h, Ok v)
          | None => (h, Raise KeyError)
          end
      | Some (OList _) => (h, Raise TypeError)
      | None => (h, Raise Dangling)
      end
  | _ => (h, Raise TypeError)
  end.

(* [del container[key]] *)
Definition py_delitem (container : val) (key : string) : M unit := λ h,
  match container with
  | VRef l =>
      match h !! l with
      | Some (ODict kvs) =>
          if dict_has key kvs
          then (<[l := ODict (dict_del key kvs)]> h, Ok tt)
          else (h, Raise KeyError)
      | Some (OList _) => (h, Raise TypeError)
      | None => (h, Raise Dangling)
      end
  | _ => (h, Raise TypeError)
  end.

(* [container[key] = v] *)
Definition py_setitem (container : val) (key : string) (v : val) : M unit := λ h,
  match container with
  | VRef l =>
      match h !! l with
      | Some (ODict kvs) => (<[l := ODict (dict_set key v kvs)]> h, Ok tt)
      | Some (OList _) => (h, Raise TypeError)
      | None => (h, Raise Dangling)
      end
  | _ => (h, Raise TypeError)
  end.

(** ** [json.dumps] and [json.loads] *)

(** CPython converts an int to or from decimal text only up to
    [sys.get_int_max_str_digits()] digits, 4300 unless the program changes
    it (this one does not); beyond that [int.__repr__] and [int(text)]
    raise [ValueError]. *)
Definition int_max_str_digits : Z := 4300.

Definition int_str_limit : Z := 10 ^ int_max_str_digits.

Definition int_fits (z : Z) : bool := (Z.abs z <? int_str_limit)%Z.
Arguments int_fits : simpl never.

(** Every integer of the document can be written. *)
Fixpoint ints_fit (d : json) : bool :=
  match d with
  | JInt z => int_fits z
  | JArr ds => forallb ints_fit ds
  | JObj kds => forallb (λ kd, ints_fit kd.2) kds
  | _ => true
  end.

Fixpoint res_mapM {A B} (f : A → res B) (xs : list A) : res (list B) :=
  match xs with
  | [] => Ok []
  | x :: rest =>
      match f x with
      | Ok y =>
          match res_mapM f rest with
          | Ok ys => Ok (y :: ys)
          | Raise e => Raise e
          end
      | Raise e => Raise e
      end
  end.

Definition res_map {A B} (f : A → B) (r : res A) : res B :=
  match r with Ok a => Ok (f a) | Raise e => Raise e end.

(** The encoder follows references; [fuel] bounds the length of a chain of
    references.  A chain longer than the number of objects in the store
    passes twice through one of them: that is the encoder's
    "Circular reference detected" [ValueError].  An int is written with
    [int.__repr__], which raises [ValueError] past the digit limit. *)
Fixpoint dumps_val (fuel : nat) (h : heap) (v : val) : res json :=
  match v with
  | VNone => Ok JNull
  | VBool b => Ok (JBool b)
  | VInt z => if int_fits z then Ok (JInt z) else Raise ValueError
  | VFloat lit => Ok (JFloat lit)
  | VStr s => Ok (JStr s)
  | VRef l =>
      match fuel with
      | 0 => Raise ValueError
      | S n =>
          match h !! l with
          | Some (OList vs) => res_map JArr (res_mapM (dumps_val n h) vs)
          | Some (ODict kvs) =>
              res_map JObj
                (res_mapM (λ kv, res_map (pair kv.1) (dumps_val n h kv.2)) kvs)
          | None => Raise Dangling
          end
      end
  end.

(** [json.dumps(v)]: the text is modelled by the document it spells. *)
Definition json_dumps (v : val) : M json := λ h,
  (h, dumps_val (length h) h v).

(** [xs] mapped through an effectful [f], left to right. *)
Definition mapM {A B} (f : A → M B) : list A → M (list B) :=
  fix go xs :=
    match xs with
    | [] => ret []
    | x :: rest =>
        let! y := f x in
        let! ys := go rest in
        ret (y :: ys)
    end.

(** [json.loads(text)]: every array and object of the text becomes a new
    list or dict, members first; an integer literal past the digit limit
    makes [int(text)] raise [ValueError]. *)
Fixpoint json_loads (d : json) : M val :=
  match d with
  | JNull => ret VNone
  | JBool b => ret (VBool b)
  | JInt z => if int_fits z then ret (VInt z) else raise ValueError
  | JFloat lit => ret (VFloat lit)
  | JStr s => ret (VStr s)
  | JArr ds =>
      let! vs := mapM json_loads ds in
      alloc (OList vs)
  | JObj kds =>
      let! kvs := mapM (λ kd, let! v := json_loads kd.2 in ret (kd.1, v)) kds in
      alloc (ODict (dict_of_pairs kvs))
  end.

(** ** The filter *)

Definition id_only_description : string :=
  "Serverless Workflow specification - workflow schema (ID-based workflows only)".

Definition filter_schema_for_id_workflows (schema_dict : val) : M val :=
  (* Create a deep copy to avoid modifying original *)
  let! text := json_dumps schema_dict in
  let! filtered_schema := json_loads text in
  (* Remove the "key" property from the main properties *)
  let! has_properties := py_contains "properties" filtered_schema in
  let! has_key :=
    (if has_properties
     then let! properties := py_getitem filtered_schema "properties" in
          py_contains "key" properties
     else ret false) in
  let! _ :=
    when has_key
      (let! properties := py_getitem filtered_schema "properties" in
       py_delitem properties "key") in
  (* Update the oneOf constraint to only require ID-based workflow *)
  let! has_oneOf := py_contains "oneOf" filtered_schema in
  let! _ :=
    when has_oneOf
      (let! required :=
         alloc (OList [VStr "id"; VStr "specVersion"; VStr "states"]) in
       let! variant := alloc (ODict [("required", required)]) in
       let! variants := alloc (OList [variant]) in
       py_setitem filtered_schema "oneOf" variants) in
  (* Update description to reflect the filtering *)
  let! has_description := py_contains "description" filtered_schema in
  let! _ :=
    when has_description
      (py_setitem filtered_schema "description" (VStr id_only_description)) in
  ret filtered_schema.

(** The document [[{"required": ["id", "specVersion", "states"]}]]. *)
Definition id_only_oneOf : json :=
  JArr [JObj [("required", JArr [JStr "id"; JStr "specVersion"; JStr "states"])]].

(** Reading the document below a value back: what the caller sees. *)
Definition read (h : heap) (v : val) : res json := dumps_val (length h) h v.

Definition scenario_doc : json :=
  JObj [("properties",
         JObj [("key", JObj [("type", JStr "string")]);
               ("id", JObj [("type", JStr "string")])]);
        ("oneOf",
         JArr [JObj [("required", JArr [JStr "key"; JStr "specVersion"; JStr "states"])];
               JObj [("required", JArr [JStr "id"; JStr "specVersion"; JStr "states"])]]);
        ("description", JStr "Serverless Workflow specification - workflow schema")].

Definition scenario_result : json :=
  JObj [("properties", JObj [("id", JObj [("type", JStr "string")])]);
        ("oneOf",
         JArr [JObj [("required", JArr [JStr "id"; JStr "specVersion"; JStr "states"])]]);
        ("description", JStr id_only_description)].

(** The scenario document as [json.load] leaves it in an empty store; its
    root is the last object. *)
Definition scenario_store : heap :=
  Eval vm_compute in (json_loads scenario_doc []).1.

Definition scenario_root : val := VRef 8.

(** ** Token and size statistics *)

(* Simple approximation: ~4 characters per token for JSON.  The texts
   measured are written by [json.dumps] with its default [ensure_ascii],
   one character per [ascii]. *)
Definition count_tokens_estimate (text : string) : Z :=
  Z.of_nat (String.length text) / 4.

(** [a / b] on ints.  Python rounds the quotient to a float; the model
    keeps the exact rational. *)
Definition py_truediv (a b : Z) : res Q :=
  if Z.eqb b 0 then Raise ZeroDivisionError
  else Ok (inject_Z a / inject_Z b)%Q.

Record reduction_report : Type := {
  original_tokens : Z;
  filtered_tokens : Z;
  reduction : Z;
  reduction_percent : Q;
  original_size : Z;
  filtered_size : Z;
  size_reduction : Z;
  size_reduction_percent : Q
}.

Definition res_bind {A B} (r : res A) (f : A → res B) : res B :=
  match r with Ok a => f a | Raise e => Raise e end.

(** Lines 106-115 of [get_filtered_schema_rules], on the two compact
    serialisations. *)
Definition reduction_statistics (original_json filtered_json : string)
  : res reduction_report :=
  let original_tokens := count_tokens_estimate original_json in
  let filtered_tokens := count_tokens_estimate filtered_json in
  let reduction := (original_tokens - filtered_tokens)%Z in
  res_bind
    (if (0 <? original_tokens)%Z
     then res_map (λ q, q * inject_Z 100)%Q (py_truediv reduction original_tokens)
     else Ok (inject_Z 0))
    (λ reduction_percent,
       let original_size := Z.of_nat (String.length original_json) in
       let filtered_size := Z.of_nat (String.length filtered_json) in
       let size_reduction := (original_size - filtered_size)%Z in
       res_bind
         (if (0 <? original_size)%Z
          then res_map (λ q, q * inject_Z 100)%Q
                 (py_truediv size_reduction original_size)
          else Ok (inject_Z 0))
         (λ size_reduction_percent,
            Ok {| original_tokens := original_tokens;
                  filtered_tokens := filtered_tokens;
                  reduction := reduction;
                  reduction_percent := reduction_percent;
                  original_size := original_size;
                  filtered_size := filtered_size;
                  size_reduction := size_reduction;
                  size_reduction_percent := size_reduction_percent |})).

(** ** What a value of the store stands for *)

(** [repr_in P h v d]: in store [h] the value [v] spells the document [d],
    through objects at locations in [P] only.  Dicts hold each key once. *)
Inductive repr_in (P : nat → Prop) (h : heap) : val → json → Prop :=
  | repr_null : repr_in P h VNone JNull
  | repr_bool b : repr_in P h (VBool b) (JBool b)
  | repr_int z : repr_in P h (VInt z) (JInt z)
  | repr_float lit : repr_in P h (VFloat lit) (JFloat lit)
  | repr_str s : repr_in P h (VStr s) (JStr s)
  | repr_arr l vs ds :
      P l → h !! l = Some (OList vs) →
      Forall2 (repr_in P h) vs ds →
      repr_in P h (VRef l) (JArr ds)
  | repr_obj l kvs kds :
      P l → h !! l = Some (ODict kvs) →
      NoDup kvs.*1 → kvs.*1 = kds.*1 →
      Forall2 (repr_in P h) kvs.*2 kds.*2 →
      repr_in P h (VRef l) (JObj kds).

Abbreviation repr := (repr_in (λ _, True)).

(** [tree_in h lo hi v d]: [v] spells [d] through objects laid out between
    [lo] and [hi], every container above its members and the members of a
    container one after the other: the shape [json_loads] builds. *)
Inductive tree_in (h : heap) : nat → nat → val → json → Prop :=
  | tree_null lo hi : lo ≤ hi → tree_in h lo hi VNone JNull
  | tree_bool lo hi b : lo ≤ hi → tree_in h lo hi (VBool b) (JBool b)
  | tree_int lo hi z : lo ≤ hi → tree_in h lo hi (VInt z) (JInt z)
  | tree_float lo hi lit : lo ≤ hi → tree_in h lo hi (VFloat lit) (JFloat lit)
  | tree_str lo hi s : lo ≤ hi → tree_in h lo hi (VStr s) (JStr s)
  | tree_arr lo l hi vs ds :
      l < hi → h !! l = Some (OList vs) →
      trees_in h lo l vs ds →
      tree_in h lo hi (VRef l) (JArr ds)
  | tree_obj lo l hi kvs kds :
      l < hi → h !! l = Some (ODict kvs) →
      NoDup kvs.*1 → kvs.*1 = kds.*1 →
      trees_in h lo l kvs.*2 kds.*2 →
      tree_in h lo hi (VRef l) (JObj kds)
with trees_in (h : heap) : nat → nat → list val → list json → Prop :=
  | trees_nil lo hi : lo ≤ hi → trees_in h lo hi [] []
  | trees_cons lo mid hi v d vs ds :
      tree_in h lo mid v d → trees_in h mid hi vs ds →
      trees_in h lo hi (v :: vs) (d :: ds).

Scheme tree_in_mut := Minimality for tree_in Sort Prop
  with trees_in_mut := Minimality for trees_in Sort Prop.
Combined Scheme tree_trees_ind from tree_in_mut, trees_in_mut.

(** Nesting depth of containers. *)
Fixpoint depth (d : json) : nat :=
  match d with
  | JArr ds => S (foldr (λ d n, depth d `max` n) 0 ds)
  | JObj kds => S (foldr (λ kd n, depth kd.2 `max` n) 0 kds)
  | _ => 0
  end.

Fixpoint size (d : json) : nat :=
  match d with
  | JArr ds => S (foldr (λ d n, size d + n) 0 ds)
  | JObj kds => S (foldr (λ kd n, size kd.2 + n) 0 kds)
  | _ => 1
  end.

(** ** The filter on documents *)

Definition doc_is_str (needle : string) (d : json) : bool :=
  match d with JStr s => String.eqb needle s | _ => false end.

(* [needle in d] *)
Definition doc_contains (needle : string) (d : json) : res bool :=
  match d with
  | JStr s => Ok (is_substring needle s)
  | JArr ds => Ok (existsb (doc_is_str needle) ds)
  | JObj kds => Ok (dict_has needle kds)
  | _ => Raise TypeError
  end.

(** What [filter_schema_for_id_workflows] returns, document to document
    ([filter_denotes] below). *)
Definition filter_doc (d : json) : res json :=
  match d with
  | JObj kds =>
      res_bind
        (match dict_get "properties" kds with
         | Some (JObj ps) =>
             Ok (if dict_has "key" ps
                 then dict_set "properties" (JObj (dict_del "key" ps)) kds
                 else kds)
         | Some p =>
             match doc_contains "key" p with
             | Ok false => Ok kds
             | _ => Raise TypeError
             end
         | None => Ok kds
         end)
        (λ kds1,
           let kds2 := if dict_has "oneOf" kds1
                       then dict_set "oneOf" id_only_oneOf kds1 else kds1 in
           let kds3 := if dict_has "description" kds2
                       then dict_set "description" (JStr id_only_description) kds2
                       else kds2 in
           Ok (JObj kds3))
  | _ =>
      match doc_contains "properties" d, doc_contains "oneOf" d,
            doc_contains "description" d with
      | Ok false, Ok false, Ok false => Ok d
      | _, _, _ => Raise TypeError
      end
  end.

(** The shape the filter relies on: an object at the root whose
    [properties], when present, is an object. *)
Definition schema_document (d : json) : Prop :=
  match d with
  | JObj kds =>
      match dict_get "properties" kds with
      | Some (JObj _) | None => True
      | Some _ => False
      end
  | _ => False
  end.

(** ** Stores as Python keeps them *)

(** The values an object holds. *)
Definition obj_vals (o : obj) : list val :=
  match o with
  | ODict kvs => kvs.*2
  | OList vs => vs
  end.

(** Every reference held by an object of the store points into the store,
    and every dict holds each key once. *)
Definition heap_closed (h : heap) : Prop :=
  ∀ l o, h !! l = Some o →
    (∀ l', VRef l' ∈ obj_vals o → l' < length h) ∧
    match o with ODict kvs => NoDup kvs.*1 | OList _ => True end.

(** [points_to h l l']: the object at [l] holds a reference to [l']. *)
Inductive points_to (h : heap) (l l' : nat) : Prop :=
  | points_to_intro o : h !! l = Some o → VRef l' ∈ obj_vals o → points_to h l l'.

(** ** Predicates and program fragments used in the proofs *)

(** What [json_loads d] does to a store [h]. *)
Definition loads_ok (d : json) : Prop :=
  ∀ h : heap, ∃ v t,
    json_loads d h = (h ++ t, Ok v) ∧
    tree_in (h ++ t) (length h) (length (h ++ t)) v d.

(** The copy of an object document while the filter edits it: the root dict
    sits at [l0], above the caller's store [h0], which is untouched; the
    members are spelled through new objects other than the root. *)
Definition root_inv (h0 : heap) (l0 : nat) (h : heap)
    (kvs : list (string * val)) (kds : list (string * json)) : Prop :=
  take (length h0) h = h0 ∧ length h0 ≤ l0 ∧
  h !! l0 = Some (ODict kvs) ∧ NoDup kvs.*1 ∧ kvs.*1 = kds.*1 ∧
  Forall2 (repr_in (λ l, length h0 ≤ l ∧ l ≠ l0) h) kvs.*2 kds.*2.

(** The last two edits and the return of [filter_schema_for_id_workflows]. *)
Definition narrow_tail (filtered_schema : val) : M val :=
  let! has_oneOf := py_contains "oneOf" filtered_schema in
  let! _ :=
    when has_oneOf
      (let! required :=
         alloc (OList [VStr "id"; VStr "specVersion"; VStr "states"]) in
       let! variant := alloc (ODict [("required", required)]) in
       let! variants := alloc (OList [variant]) in
       py_setitem filtered_schema "oneOf" variants) in
  let! has_description := py_contains "description" filtered_schema in
  let! _ :=
    when has_description
      (py_setitem filtered_schema "description" (VStr id_only_description)) in
  ret filtered_schema.

(** The body of [filter_schema_for_id_workflows] after the copy. *)
Definition edit_copy (filtered_schema : val) : M val :=
  let! has_properties := py_contains "properties" filtered_schema in
  let! has_key :=
    (if has_properties
     then let! properties := py_getitem filtered_schema "properties" in
          py_contains "key" properties
     else ret false) in
  let! _ :=
    when has_key
      (let! properties := py_getitem filtered_schema "properties" in
       py_delitem properties "key") in
  narrow_tail filtered_schema.

(** The three edits on the members of the root object. *)
Definition strip_key (kds : list (string * json)) : list (string * json) :=
  match dict_get "properties" kds with
  | Some (JObj ps) =>
      if dict_has "key" ps
      then dict_set "properties" (JObj (dict_del "key" ps)) kds
      else kds
  | _ => kds
  end.

Definition narrow_oneOf (kds : list (string * json)) : list (string * json) :=
  if dict_has "oneOf" kds then dict_set "oneOf" id_only_oneOf kds else kds.

Definition annotate (kds : list (string * json)) : list (string * json) :=
  if dict_has "description" kds
  then dict_set "description" (JStr id_only_description) kds
  else kds.

Definition filtered_members (kds : list (string * json)) : list (string * json) :=
  annotate (narrow_oneOf (strip_key kds)).

(** * Proofs *)

(** ** Induction on documents *)

Lemma json_ind' (P : json → Prop) :
  P JNull → (∀ b, P (JBool b)) → (∀ z, P (JInt z)) →
  (∀ lit, P (JFloat lit)) → (∀ s, P (JStr s)) →
  (∀ ds, Forall P ds → P (JArr ds)) →
  (∀ kds, Forall P kds.*2 → P (JObj kds)) →
  ∀ d, P d.
Proof.
  intros Hnull Hbool Hint Hfloat Hstr Harr Hobj.
  fix IH 1. intros [| b | z | lit | s | ds | kds];
    [exact Hnull | apply Hbool | apply Hint | apply Hfloat | apply Hstr | |].
  - apply Harr. induction ds as [| d ds IHds]; constructor; [apply IH | exact IHds].
  - apply Hobj. induction kds as [| [k d] kds IHkds]; constructor;
      [apply IH | exact IHkds].
Qed.

Lemma Forall2_Forall_impl {A B} (R R' : A → B → Prop) xs ys :
  Forall (λ y, ∀ x, R x y → R' x y) ys → Forall2 R xs ys → Forall2 R' xs ys.
Proof.
  intros HF H2. induction H2 as [| x y xs ys Hxy _ IH]; [constructor |].
  inversion HF; subst. constructor; auto.
Qed.

Lemma fst_snd_eq {A B} (l1 l2 : list (A * B)) :
  l1.*1 = l2.*1 → l1.*2 = l2.*2 → l1 = l2.
Proof.
  revert l2. induction l1 as [| [a b] l1 IH]; intros [| [a' b'] l2]; simpl;
    intros H1 H2; try discriminate; [done |].
  injection H1 as -> H1. injection H2 as -> H2. f_equal. by apply IH.
Qed.

(** ** Representation: weakening, frame, determinism *)

Lemma repr_in_mono (P Q : nat → Prop) (h h' : heap) d :
  (∀ l, P l → Q l) →
  (∀ l o, P l → h !! l = Some o → h' !! l = Some o) →
  ∀ v, repr_in P h v d → repr_in Q h' v d.
Proof.
  intros HPQ Hh. induction d as [| | | | | ds IH | kds IH] using json_ind';
    intros v Hr; inversion Hr; subst; try constructor.
  - eapply repr_arr; eauto. eapply Forall2_Forall_impl; eauto.
  - eapply repr_obj; eauto. eapply Forall2_Forall_impl; eauto.
Qed.

Lemma repr_in_weaken (P Q : nat → Prop) (h : heap) v d :
  (∀ l, P l → Q l) → repr_in P h v d → repr_in Q h v d.
Proof. intros HPQ. apply repr_in_mono; auto. Qed.

Lemma repr_in_frame (P : nat → Prop) (h h' : heap) v d :
  (∀ l, P l → h' !! l = h !! l) → repr_in P h v d → repr_in P h' v d.
Proof.
  intros Hh. apply repr_in_mono; auto. intros l o HP Hl. by rewrite Hh.
Qed.

Lemma repr_app (h t : heap) v d : repr h v d → repr (h ++ t) v d.
Proof.
  apply repr_in_mono; auto. intros l o _ Hl. by apply lookup_app_l_Some.
Qed.

Lemma Forall2_functional {A B} (R R' : A → B → Prop) xs ys ys' :
  Forall (λ y, ∀ x y', R x y → R' x y' → y = y') ys →
  Forall2 R xs ys → Forall2 R' xs ys' → ys = ys'.
Proof.
  intros HF H2. revert ys' HF.
  induction H2 as [| x y xs ys Hxy _ IH]; intros ys' HF H2';
    inversion H2'; subst; [done |].
  inversion HF; subst. f_equal; eauto.
Qed.

Lemma repr_in_functional (P Q : nat → Prop) (h : heap) d :
  ∀ v d', repr_in P h v d → repr_in Q h v d' → d = d'.
Proof.
  induction d as [| | | | | ds IH | kds IH] using json_ind';
    intros v d' Hr Hr'; inversion Hr; subst; inversion Hr'; subst;
    simplify_eq; try done.
  - f_equal.
    by eapply (Forall2_functional (repr_in P h) (repr_in Q h)).
  - f_equal. apply fst_snd_eq; [congruence |].
    by eapply (Forall2_functional (repr_in P h) (repr_in Q h)).
Qed.

(** ** The encoder reads a represented document back *)

Lemma size_elem d ds : d ∈ ds → size d ≤ foldr (λ d n, size d + n) 0 ds.
Proof.
  induction 1 as [d ds | d d' ds _ IH]; simpl; lia.
Qed.

Lemma foldr_snd {B} (f : json → B → B) (b : B) (kds : list (string * json)) :
  foldr (λ kd n, f kd.2 n) b kds = foldr f b kds.*2.
Proof. induction kds as [| kd kds IH]; simpl; [done | by rewrite IH]. Qed.

Lemma depth_bound ds n :
  Forall (λ d, depth d ≤ n) ds → foldr (λ d m, depth d `max` m) 0 ds ≤ n.
Proof. induction 1; simpl; lia. Qed.

Lemma seen_bound (seen : list nat) n :
  NoDup seen → (∀ l, l ∈ seen → l < n) → length seen ≤ n.
Proof.
  intros Hnd Hlt.
  assert (H : length seen ≤ length (seq 0 n)); [| by rewrite length_seq in H].
  apply submseteq_length, NoDup_submseteq; [done |].
  intros l Hl. apply elem_of_seq. specialize (Hlt l Hl). lia.
Qed.

Lemma repr_lookup (P : nat → Prop) (h : heap) l d :
  repr_in P h (VRef l) d → l < length h.
Proof. inversion 1; subst; by eapply lookup_lt_Some. Qed.

(** Along a chain of references no object comes twice, so the chain is no
    longer than the store. *)
Lemma repr_depth (h : heap) d :
  ∀ v (seen : list nat),
    repr h v d → NoDup seen →
    (∀ l, l ∈ seen → ∃ dl, repr h (VRef l) dl ∧ size d < size dl) →
    depth d + length seen ≤ length h.
Proof.
  assert (Hbase : ∀ (seen : list nat),
             NoDup seen → (∀ l, l ∈ seen → ∃ dl, repr h (VRef l) dl) →
             length seen ≤ length h).
  { intros seen Hnd Hs. apply seen_bound; [done |].
    intros l Hl. destruct (Hs l Hl) as [dl Hdl]. by eapply repr_lookup. }
  assert (Hstep : ∀ d0 l (ds : list json) (seen : list nat),
             repr h (VRef l) d0 → foldr (λ c n, size c + n) 0 ds < size d0 →
             Forall (λ c, ∀ v (seen : list nat),
                       repr h v c → NoDup seen →
                       (∀ l, l ∈ seen → ∃ dl, repr h (VRef l) dl ∧ size c < size dl) →
                       depth c + length seen ≤ length h) ds →
             ∀ vs, Forall2 (repr h) vs ds →
             NoDup seen →
             (∀ l, l ∈ seen → ∃ dl, repr h (VRef l) dl ∧ size d0 < size dl) →
             S (foldr (λ c m, depth c `max` m) 0 ds) + length seen ≤ length h).
  { intros d0 l ds seen Hd Hsz IH vs Hvs Hnd Hseen.
    assert (Hl : l ∉ seen).
    { intros Hl. destruct (Hseen l Hl) as (dl & Hdl & Hlt).
      rewrite (repr_in_functional _ _ _ _ _ _ Hd Hdl) in Hlt. lia. }
    assert (Hnd' : NoDup (l :: seen)) by by constructor.
    assert (Hall : Forall (λ c, depth c ≤ length h - S (length seen)) ds).
    { apply Forall_forall. intros c Hc.
      destruct (list_elem_of_lookup_1 _ _ Hc) as [i Hi].
      destruct (Forall2_lookup_r _ _ _ _ _ Hvs Hi) as (v & _ & Hv).
      rewrite Forall_lookup in IH.
      specialize (IH i c Hi v (l :: seen) Hv Hnd'). simpl in IH.
      pose proof (size_elem _ _ Hc).
      enough (depth c + S (length seen) ≤ length h) by lia.
      apply IH. intros l' [-> | Hl']%elem_of_cons.
      - exists d0. split; [done | lia].
      - destruct (Hseen l' Hl') as (dl & Hdl & Hlt). exists dl. split; [done | lia]. }
    apply depth_bound in Hall.
    assert (length (l :: seen) ≤ length h).
    { apply Hbase; [done |]. intros l' [-> | Hl']%elem_of_cons; [by eexists |].
      destruct (Hseen l' Hl') as (dl & Hdl & _). by eexists. }
    simpl in *. lia. }
  induction d as [| | | | | ds IH | kds IH] using json_ind';
    intros v seen Hr Hnd Hseen;
    try (simpl; apply Hbase; [done | intros l Hl; destruct (Hseen l Hl) as (dl & ? & _); by eexists]).
  - inversion Hr; subst. simpl.
    eapply (Hstep (JArr ds)); eauto; simpl; lia.
  - inversion Hr; subst. simpl. rewrite (foldr_snd (λ d m, depth d `max` m)).
    eapply (Hstep (JObj kds)); eauto; simpl;
      rewrite (foldr_snd (λ d n, size d + n)); lia.
Qed.

Lemma res_mapM_Forall2 {A B} (f : A → res B) xs ys :
  Forall2 (λ x y, f x = Ok y) xs ys → res_mapM f xs = Ok ys.
Proof.
  induction 1 as [| x y xs ys Hxy _ IH]; simpl; [done |]. by rewrite Hxy, IH.
Qed.

Lemma Forall2_pairs {A B} (R : A → B → Prop)
    (kvs : list (string * A)) (kds : list (string * B)) :
  kvs.*1 = kds.*1 → Forall2 R kvs.*2 kds.*2 →
  Forall2 (λ kv kd, kv.1 = kd.1 ∧ R kv.2 kd.2) kvs kds.
Proof.
  revert kds. induction kvs as [| [k v] kvs IH]; intros [| [k' d] kds] Hk Hv;
    simpl in *; try discriminate; [constructor |].
  injection Hk as -> Hk. inversion Hv; subst. constructor; auto.
Qed.

Lemma depth_elem c ds n :
  c ∈ ds → foldr (λ d m, depth d `max` m) 0 ds ≤ n → depth c ≤ n.
Proof. induction 1 as [| c d ds _ IH]; simpl; intros; [lia |]. apply IH. lia. Qed.

Lemma forallb_Forall {A} (f : A → bool) (xs : list A) :
  forallb f xs = true ↔ Forall (λ x, f x = true) xs.
Proof.
  induction xs as [| x xs IH]; simpl; [by split |].
  rewrite andb_true_iff, IH. split.
  - intros [? ?]. by constructor.
  - by inversion 1.
Qed.

Lemma res_mapM_fits {A B} (f : A → res B) (g : B → bool) e xs ys :
  Forall2 (λ x y, f x = if g y then Ok y else Raise e) xs ys →
  res_mapM f xs = if forallb g ys then Ok ys else Raise e.
Proof.
  induction 1 as [| x y xs ys Hxy _ IH]; simpl; [done |].
  rewrite Hxy. destruct (g y); simpl; [| done].
  rewrite IH. by destruct (forallb g ys).
Qed.

(** The encoder writes a represented document, unless one of its integers
    is too long to write. *)
Lemma dumps_val_repr (h : heap) d :
  ∀ v n, repr h v d → depth d ≤ n →
         dumps_val n h v = if ints_fit d then Ok d else Raise ValueError.
Proof.
  induction d as [| b | z | lit | s | ds IH | kds IH] using json_ind';
    intros v n Hr Hn; inversion Hr; subst; try (by destruct n).
  - simpl in Hn. destruct n as [| n]; [lia |]. simpl.
    match goal with H : h !! _ = Some _ |- _ => rewrite H end.
    match goal with H : Forall2 _ ?vs ds |- _ =>
      assert (HF : Forall2
                (λ v d, dumps_val n h v = if ints_fit d then Ok d else Raise ValueError)
                vs ds)
    end.
    { eapply Forall2_Forall_impl; [| eassumption].
      rewrite Forall_forall in *. intros c Hc v Hv. apply IH; [done.. |].
      eapply depth_elem; [done | lia]. }
    rewrite (res_mapM_fits _ ints_fit ValueError _ _ HF).
    by destruct (forallb ints_fit ds).
  - simpl in Hn. destruct n as [| n]; [lia |]. simpl.
    match goal with H : h !! _ = Some _ |- _ => rewrite H end.
    rewrite (foldr_snd (λ d m, depth d `max` m)) in Hn.
    match goal with H : ?kvs.*1 = kds.*1 |- _ =>
      assert (HF : Forall2
                (λ kv kd, res_map (pair kv.1) (dumps_val n h kv.2)
                          = if ints_fit kd.2 then Ok kd else Raise ValueError)
                kvs kds)
    end.
    { eapply Forall2_impl.
      - apply (Forall2_pairs
                 (λ v d, dumps_val n h v
                         = if ints_fit d then Ok d else Raise ValueError));
          [done |].
        eapply Forall2_Forall_impl; [| eassumption].
        rewrite Forall_forall in *. intros c Hc v Hv. apply IH; [done.. |].
        eapply depth_elem; [done | lia].
      - intros [k v] [k' c] [Hk Hv]. simpl in *. rewrite Hk, Hv.
        by destruct (ints_fit c). }
    rewrite (res_mapM_fits _ (λ kd, ints_fit kd.2) ValueError _ _ HF).
    by destruct (forallb _ kds).
Qed.

Lemma repr_read_any (h : heap) v d :
  repr h v d → read h v = if ints_fit d then Ok d else Raise ValueError.
Proof.
  intros Hr. apply dumps_val_repr; [done |].
  pose proof (repr_depth h d v [] Hr (NoDup_nil_2)) as H. simpl in H.
  rewrite Nat.add_0_r in H. apply H. intros l Hl. by apply elem_of_nil in Hl.
Qed.

Lemma repr_read (h : heap) v d :
  repr h v d → ints_fit d = true → read h v = Ok d.
Proof. intros Hr Hf. by rewrite (repr_read_any h v d Hr), Hf. Qed.

(** ** Dicts *)

Section dict_facts.
Context {A : Type}.
Implicit Types (k : string) (kvs : list (string * A)).

Lemma dict_get_None k kvs : dict_get k kvs = None ↔ k ∉ kvs.*1.
Proof.
  induction kvs as [| [k' v] kvs IH]; csimpl.
  - split; [intros _ H; by apply elem_of_nil in H | done].
  - rewrite not_elem_of_cons. destruct (String.eqb_spec k k') as [-> | Hne].
    + split; [done | by intros [? _]].
    + rewrite IH. tauto.
Qed.

Lemma dict_has_true k kvs : dict_has k kvs = true ↔ k ∈ kvs.*1.
Proof.
  unfold dict_has. destruct (dict_get k kvs) eqn:E.
  - split; [intros _ | done].
    destruct (decide (k ∈ kvs.*1)) as [| Hn]; [done |].
    apply dict_get_None in Hn. congruence.
  - apply dict_get_None in E. split; [done | tauto].
Qed.

Lemma dict_has_false k kvs : dict_has k kvs = false ↔ k ∉ kvs.*1.
Proof. rewrite <- dict_has_true. destruct (dict_has k kvs); split; congruence. Qed.

Lemma dict_replace_keys k v kvs : (dict_replace k v kvs).*1 = kvs.*1.
Proof. induction kvs as [| [k' v'] kvs IH]; csimpl; [done | by rewrite IH]. Qed.

Lemma dict_replace_absent k v kvs : k ∉ kvs.*1 → dict_replace k v kvs = kvs.
Proof.
  induction kvs as [| [k' v'] kvs IH]; csimpl; [done |].
  rewrite not_elem_of_cons. intros [Hne Hk].
  destruct (String.eqb_spec k k'); [done |]. by rewrite IH.
Qed.

Lemma dict_set_keys k v kvs :
  (dict_set k v kvs).*1 = if dict_has k kvs then kvs.*1 else kvs.*1 ++ [k].
Proof.
  unfold dict_set. destruct (dict_has k kvs).
  - apply dict_replace_keys.
  - by rewrite fmap_app.
Qed.

Lemma dict_set_NoDup k v kvs : NoDup kvs.*1 → NoDup (dict_set k v kvs).*1.
Proof.
  intros Hnd. rewrite dict_set_keys. destruct (dict_has k kvs) eqn:E; [done |].
  apply dict_has_false in E. apply NoDup_app. split_and!; [done | | apply NoDup_singleton].
  intros x Hx ->%list_elem_of_singleton. done.
Qed.

Lemma dict_del_keys_sub k kvs x : x ∈ (dict_del k kvs).*1 → x ∈ kvs.*1 ∧ x ≠ k.
Proof.
  induction kvs as [| [k' v'] kvs IH]; csimpl; [by intros ?%elem_of_nil |].
  destruct (String.eqb_spec k k') as [-> | Hne].
  - intros [? ?]%IH. split; [by right | done].
  - intros [-> | Hx]%elem_of_cons; [split; [by left | done] |].
    destruct (IH Hx). split; [by right | done].
Qed.

Lemma dict_del_NoDup k kvs : NoDup kvs.*1 → NoDup (dict_del k kvs).*1.
Proof.
  induction kvs as [| [k' v'] kvs IH]; csimpl; [done |].
  intros [Hk Hnd]%NoDup_cons. destruct (String.eqb_spec k k'); [by apply IH |].
  csimpl. apply NoDup_cons. split; [| by apply IH].
  intros [? _]%dict_del_keys_sub. done.
Qed.

Lemma dict_get_del_eq k kvs : dict_get k (dict_del k kvs) = None.
Proof. apply dict_get_None. intros [_ ?]%dict_del_keys_sub. done. Qed.

Lemma dict_get_del_ne k k' kvs :
  k ≠ k' → dict_get k' (dict_del k kvs) = dict_get k' kvs.
Proof.
  intros Hne. induction kvs as [| [k0 v0] kvs IH]; csimpl; [done |].
  destruct (String.eqb_spec k k0) as [-> | Hk].
  - destruct (String.eqb_spec k' k0); [congruence | done].
  - csimpl. by rewrite IH.
Qed.

Lemma dict_get_replace_eq k v kvs :
  k ∈ kvs.*1 → dict_get k (dict_replace k v kvs) = Some v.
Proof.
  induction kvs as [| [k0 v0] kvs IH]; csimpl; [by intros ?%elem_of_nil |].
  destruct (String.eqb_spec k k0) as [-> | Hk]; [done |].
  intros [? | ?]%elem_of_cons; [done | by apply IH].
Qed.

Lemma dict_get_replace_ne k k' v kvs :
  k ≠ k' → dict_get k' (dict_replace k v kvs) = dict_get k' kvs.
Proof.
  intros Hne. induction kvs as [| [k0 v0] kvs IH]; csimpl; [done |].
  destruct (String.eqb_spec k' k0) as [-> | Hk]; [| done].
  destruct (String.eqb_spec k k0); [congruence | done].
Qed.

Lemma dict_get_app k kvs kvs' :
  dict_get k (kvs ++ kvs') =
    match dict_get k kvs with Some v => Some v | None => dict_get k kvs' end.
Proof.
  induction kvs as [| [k0 v0] kvs IH]; csimpl; [done |].
  by destruct (String.eqb_spec k k0).
Qed.

Lemma dict_get_set_eq k v kvs : dict_get k (dict_set k v kvs) = Some v.
Proof.
  unfold dict_set. destruct (dict_has k kvs) eqn:E.
  - apply dict_get_replace_eq. by apply dict_has_true.
  - apply dict_has_false, dict_get_None in E. rewrite dict_get_app, E. csimpl.
    by rewrite String.eqb_refl.
Qed.

Lemma dict_get_set_ne k k' v kvs :
  k ≠ k' → dict_get k' (dict_set k v kvs) = dict_get k' kvs.
Proof.
  intros Hne. unfold dict_set. destruct (dict_has k kvs).
  - by apply dict_get_replace_ne.
  - rewrite dict_get_app. destruct (dict_get k' kvs); [done |]. csimpl.
    destruct (String.eqb_spec k' k); [congruence | done].
Qed.

Lemma dict_has_set k k' v kvs :
  dict_has k' (dict_set k v kvs) = (String.eqb k' k || dict_has k' kvs)%bool.
Proof.
  unfold dict_has. destruct (String.eqb_spec k' k) as [-> | Hne].
  - by rewrite dict_get_set_eq.
  - by rewrite dict_get_set_ne.
Qed.

Lemma dict_of_pairs_NoDup kvs : NoDup kvs.*1 → dict_of_pairs kvs = kvs.
Proof.
  unfold dict_of_pairs.
  enough (H : ∀ acc, NoDup (acc ++ kvs).*1 →
              fold_left (λ acc kv, dict_set kv.1 kv.2 acc) kvs acc = acc ++ kvs)
    by apply (H []).
  induction kvs as [| [k v] kvs IH]; intros acc Hnd; csimpl.
  - by rewrite app_nil_r.
  - assert (Hk : dict_has k acc = false).
    { apply dict_has_false. rewrite fmap_app in Hnd.
      apply NoDup_app in Hnd as (_ & Hd & _). intros Hk.
      apply (Hd k Hk). csimpl. by left. }
    unfold dict_set at 2. rewrite Hk.
    rewrite IH; [by rewrite <- app_assoc |]. by rewrite <- app_assoc.
Qed.
End dict_facts.

Lemma dict_has_keys {A B} k (kvs : list (string * A)) (kds : list (string * B)) :
  kvs.*1 = kds.*1 → dict_has k kvs = dict_has k kds.
Proof.
  intros Hk. destruct (dict_has k kds) eqn:E.
  - apply dict_has_true. rewrite Hk. by apply dict_has_true.
  - apply dict_has_false. rewrite Hk. by apply dict_has_false.
Qed.

Section dict_rel.
Context {A B : Type} (R : A → B → Prop).
Implicit Types (kvs : list (string * A)) (kds : list (string * B)).

Lemma dict_get_rel k kvs kds :
  kvs.*1 = kds.*1 → Forall2 R kvs.*2 kds.*2 →
  match dict_get k kvs, dict_get k kds with
  | Some v, Some d => R v d
  | None, None => True
  | _, _ => False
  end.
Proof.
  revert kds. induction kvs as [| [k0 v] kvs IH]; intros [| [k1 d] kds] Hk Hv;
    csimpl in *; try discriminate; [done |].
  injection Hk as -> Hk. inversion Hv; subst.
  destruct (String.eqb_spec k k1); [done | by apply IH].
Qed.

Lemma dict_del_rel k kvs kds :
  kvs.*1 = kds.*1 → Forall2 R kvs.*2 kds.*2 →
  (dict_del k kvs).*1 = (dict_del k kds).*1 ∧
  Forall2 R (dict_del k kvs).*2 (dict_del k kds).*2.
Proof.
  revert kds. induction kvs as [| [k0 v] kvs IH]; intros [| [k1 d] kds] Hk Hv;
    csimpl in *; try discriminate; [by split |].
  injection Hk as -> Hk. inversion Hv; subst.
  destruct (IH kds Hk) as [IH1 IH2]; [done |].
  destruct (String.eqb_spec k k1); [done |]. csimpl. split; [by f_equal | by constructor].
Qed.

Lemma dict_replace_rel k v d kvs kds :
  kvs.*1 = kds.*1 → Forall2 R kvs.*2 kds.*2 → R v d →
  Forall2 R (dict_replace k v kvs).*2 (dict_replace k d kds).*2.
Proof.
  intros Hk Hv Hvd. revert kds Hk Hv.
  induction kvs as [| [k0 v0] kvs IH]; intros [| [k1 d1] kds] Hk Hv;
    csimpl in *; try discriminate; [done |].
  injection Hk as -> Hk. inversion Hv; subst.
  constructor; [by destruct (String.eqb k k1) | by apply IH].
Qed.

Lemma dict_set_rel k v d kvs kds :
  kvs.*1 = kds.*1 → Forall2 R kvs.*2 kds.*2 → R v d →
  (dict_set k v kvs).*1 = (dict_set k d kds).*1 ∧
  Forall2 R (dict_set k v kvs).*2 (dict_set k d kds).*2.
Proof.
  intros Hk Hv Hvd. split.
  - rewrite !dict_set_keys, (dict_has_keys k kvs kds Hk). by rewrite Hk.
  - unfold dict_set. rewrite (dict_has_keys k kvs kds Hk).
    destruct (dict_has k kds).
    + by apply dict_replace_rel.
    + rewrite !fmap_app. apply Forall2_app; [done |]. by constructor.
Qed.
End dict_rel.

(** ** Running computations *)

Lemma bind_ok {A B} (m : M A) (f : A → M B) (h h' : heap) a :
  m h = (h', Ok a) → bind m f h = f a h'.
Proof. unfold bind. by intros ->. Qed.

Lemma bind_raise {A B} (m : M A) (f : A → M B) (h h' : heap) e :
  m h = (h', Raise e) → bind m f h = (h', Raise e).
Proof. unfold bind. by intros ->. Qed.

(** ** Freshly loaded documents *)

Lemma tree_in_le (h : heap) :
  (∀ lo hi v d, tree_in h lo hi v d → lo ≤ hi) ∧
  (∀ lo hi vs ds, trees_in h lo hi vs ds → lo ≤ hi).
Proof. apply tree_trees_ind; intros; lia. Qed.

Lemma tree_in_frame_both (h : heap) :
  (∀ lo hi v d, tree_in h lo hi v d →
     ∀ h' lo' hi', lo' ≤ lo → hi ≤ hi' →
       (∀ l, lo ≤ l < hi → h' !! l = h !! l) → tree_in h' lo' hi' v d) ∧
  (∀ lo hi vs ds, trees_in h lo hi vs ds →
     ∀ h' lo' hi', lo' ≤ lo → hi ≤ hi' →
       (∀ l, lo ≤ l < hi → h' !! l = h !! l) → trees_in h' lo' hi' vs ds).
Proof.
  apply tree_trees_ind.
  1-5: intros; constructor; lia.
  - intros lo l hi vs ds Hl Hh Ht IH h' lo' hi' Hlo Hhi Hfr.
    pose proof (proj2 (tree_in_le h) _ _ _ _ Ht).
    apply tree_arr with vs; [lia | rewrite Hfr; [done | lia] |].
    apply IH; [lia.. |]. intros; apply Hfr; lia.
  - intros lo l hi kvs kds Hl Hh Hnd Hk Ht IH h' lo' hi' Hlo Hhi Hfr.
    pose proof (proj2 (tree_in_le h) _ _ _ _ Ht).
    apply tree_obj with kvs; [lia | rewrite Hfr; [done | lia] | done.. |].
    apply IH; [lia.. |]. intros; apply Hfr; lia.
  - intros; constructor; lia.
  - intros lo mid hi v d vs ds Hv IHv Hvs IHvs h' lo' hi' Hlo Hhi Hfr.
    pose proof (proj1 (tree_in_le h) _ _ _ _ Hv).
    pose proof (proj2 (tree_in_le h) _ _ _ _ Hvs).
    apply trees_cons with mid.
    + apply IHv; [lia.. |]. intros; apply Hfr; lia.
    + apply IHvs; [lia.. |]. intros; apply Hfr; lia.
Qed.

Lemma tree_in_frame (h h' : heap) lo hi lo' hi' v d :
  lo' ≤ lo → hi ≤ hi' → (∀ l, lo ≤ l < hi → h' !! l = h !! l) →
  tree_in h lo hi v d → tree_in h' lo' hi' v d.
Proof. intros ? ? ? Ht. by eapply (proj1 (tree_in_frame_both h)). Qed.

Lemma trees_in_frame (h h' : heap) lo hi lo' hi' vs ds :
  lo' ≤ lo → hi ≤ hi' → (∀ l, lo ≤ l < hi → h' !! l = h !! l) →
  trees_in h lo hi vs ds → trees_in h' lo' hi' vs ds.
Proof. intros ? ? ? Ht. by eapply (proj2 (tree_in_frame_both h)). Qed.

Lemma tree_in_repr (h : heap) :
  (∀ lo hi v d, tree_in h lo hi v d → repr_in (λ l, lo ≤ l < hi) h v d) ∧
  (∀ lo hi vs ds, trees_in h lo hi vs ds →
     Forall2 (repr_in (λ l, lo ≤ l < hi) h) vs ds).
Proof.
  apply tree_trees_ind.
  1-5: intros; constructor.
  - intros lo l hi vs ds Hl Hh Ht IH.
    pose proof (proj2 (tree_in_le h) _ _ _ _ Ht).
    apply repr_arr with vs; [lia | done |].
    eapply Forall2_impl; [exact IH |]. intros v d.
    apply repr_in_weaken. intros; lia.
  - intros lo l hi kvs kds Hl Hh Hnd Hk Ht IH.
    pose proof (proj2 (tree_in_le h) _ _ _ _ Ht).
    apply repr_obj with kvs; [lia | done.. |].
    eapply Forall2_impl; [exact IH |]. intros v d.
    apply repr_in_weaken. intros; lia.
  - intros; constructor.
  - intros lo mid hi v d vs ds Hv IHv Hvs IHvs.
    pose proof (proj1 (tree_in_le h) _ _ _ _ Hv).
    pose proof (proj2 (tree_in_le h) _ _ _ _ Hvs).
    constructor.
    + revert IHv. apply repr_in_weaken. intros; lia.
    + eapply Forall2_impl; [exact IHvs |]. intros v' d'.
      apply repr_in_weaken. intros; lia.
Qed.

Lemma repr_in_ref (P : nat → Prop) (h : heap) l d :
  repr_in P h (VRef l) d → P l.
Proof. by inversion 1. Qed.

Lemma trees_in_member (h : heap) lo hi vs ds l :
  trees_in h lo hi vs ds → VRef l ∈ vs → lo ≤ l < hi.
Proof.
  intros Ht%tree_in_repr Hl.
  destruct (list_elem_of_lookup_1 _ _ Hl) as [i Hi].
  destruct (Forall2_lookup_l _ _ _ _ _ Ht Hi) as (d & _ & Hd).
  by apply repr_in_ref in Hd.
Qed.

Lemma Forall2_Forall_r {A B} (R : A → B → Prop) (Q : B → Prop) xs ys :
  Forall2 R xs ys → Forall (λ y, ∀ x, R x y → Q y) ys → Forall Q ys.
Proof.
  induction 1 as [| x y xs ys Hxy _ IH]; intros HF; [constructor |].
  inversion HF; subst. constructor; eauto.
Qed.

Lemma mapM_loads_arr ds :
  Forall loads_ok ds →
  ∀ h : heap, ∃ vs t,
    mapM json_loads ds h = (h ++ t, Ok vs) ∧
    trees_in (h ++ t) (length h) (length (h ++ t)) vs ds.
Proof.
  induction 1 as [| d ds Hd _ IH]; intros h.
  - exists [], []. rewrite app_nil_r. split; [done | by constructor].
  - destruct (Hd h) as (v & t1 & Hv & Htv).
    destruct (IH (h ++ t1)) as (vs & t2 & Hvs & Htvs).
    exists (v :: vs), (t1 ++ t2). rewrite app_assoc.
    split.
    + simpl. rewrite (bind_ok _ _ _ _ _ Hv). by rewrite (bind_ok _ _ _ _ _ Hvs).
    + apply trees_cons with (length (h ++ t1)); [| done].
      revert Htv. apply tree_in_frame; [lia.. |].
      intros l Hl. apply lookup_app_l. lia.
Qed.

Lemma mapM_loads_obj (kds : list (string * json)) :
  Forall loads_ok kds.*2 →
  ∀ h : heap, ∃ kvs t,
    mapM (λ kd, let! v := json_loads kd.2 in ret (kd.1, v)) kds h
      = (h ++ t, Ok kvs) ∧
    kvs.*1 = kds.*1 ∧
    trees_in (h ++ t) (length h) (length (h ++ t)) kvs.*2 kds.*2.
Proof.
  induction kds as [| [k d] kds IH]; intros HF h.
  - exists [], []. rewrite app_nil_r. split_and!; [done.. | by constructor].
  - inversion HF as [| ? ? Hd HF']; subst.
    destruct (Hd h) as (v & t1 & Hv & Htv).
    destruct (IH HF' (h ++ t1)) as (kvs & t2 & Hvs & Hk & Htvs).
    exists ((k, v) :: kvs), (t1 ++ t2). rewrite app_assoc.
    split_and!.
    + simpl. erewrite bind_ok; [| by erewrite bind_ok by exact Hv].
      by rewrite (bind_ok _ _ _ _ _ Hvs).
    + csimpl. by rewrite Hk.
    + csimpl. apply trees_cons with (length (h ++ t1)); [| done].
      revert Htv. apply tree_in_frame; [lia.. |].
      intros l Hl. apply lookup_app_l. lia.
Qed.

Lemma loads_ok_members (P : nat → Prop) (h0 : heap) vs ds :
  Forall (λ d, ∀ v0, repr_in P h0 v0 d → ints_fit d = true → loads_ok d) ds →
  Forall2 (repr_in P h0) vs ds →
  Forall (λ d, ints_fit d = true) ds →
  Forall loads_ok ds.
Proof.
  intros IH Hvs. revert IH.
  induction Hvs as [| v d vs ds Hvd _ IHvs]; intros IH Hf; [constructor |].
  inversion IH; subst. inversion Hf; subst. constructor; eauto.
Qed.

Lemma json_loads_tree (P : nat → Prop) (h0 : heap) d :
  ∀ v0, repr_in P h0 v0 d → ints_fit d = true → loads_ok d.
Proof.
  induction d as [| b | z | lit | s | ds IH | kds IH] using json_ind';
    intros v0 Hr Hf; inversion Hr; subst; intros h.
  1-5: eexists _, []; rewrite app_nil_r; split;
    [simpl in *; by rewrite ?Hf | by constructor].
  - assert (HF : Forall loads_ok ds).
    { eapply loads_ok_members; [exact IH | eassumption |].
      by apply forallb_Forall. }
    destruct (mapM_loads_arr ds HF h) as (vs' & t & Hm & Ht).
    exists (VRef (length (h ++ t))), (t ++ [OList vs']). rewrite app_assoc. split.
    + simpl. by rewrite (bind_ok _ _ _ _ _ Hm).
    + apply tree_arr with vs'.
      * rewrite (length_app (h ++ t)). simpl. lia.
      * by apply list_lookup_middle.
      * revert Ht. apply trees_in_frame; [lia.. |].
        intros l' Hl'. apply lookup_app_l. lia.
  - assert (HF : Forall loads_ok kds.*2).
    { eapply loads_ok_members; [exact IH | eassumption |].
      simpl in Hf. apply forallb_Forall in Hf. by apply Forall_fmap. }
    destruct (mapM_loads_obj kds HF h) as (kvs' & t & Hm & Hk & Ht).
    assert (Hnd : NoDup kvs'.*1) by congruence.
    exists (VRef (length (h ++ t))), (t ++ [ODict kvs']). rewrite app_assoc. split.
    + simpl. rewrite (bind_ok _ _ _ _ _ Hm). by rewrite dict_of_pairs_NoDup.
    + apply tree_obj with kvs'; [| | done.. |].
      * rewrite (length_app (h ++ t)). simpl. lia.
      * by apply list_lookup_middle.
      * revert Ht. apply trees_in_frame; [lia.. |].
        intros l' Hl'. apply lookup_app_l. lia.
Qed.

(** ** The copy under edit *)

Lemma root_inv_repr h0 l0 h kvs kds :
  root_inv h0 l0 h kvs kds → repr h (VRef l0) (JObj kds).
Proof.
  intros (_ & _ & Hl & Hnd & Hk & Hv). apply repr_obj with kvs; try done.
  eapply Forall2_impl; [exact Hv |]. intros v d. by apply repr_in_weaken.
Qed.

Lemma root_inv_fresh h0 l0 h kvs kds :
  root_inv h0 l0 h kvs kds →
  repr_in (λ l, length h0 ≤ l) h (VRef l0) (JObj kds).
Proof.
  intros (_ & Hn & Hl & Hnd & Hk & Hv). apply repr_obj with kvs; try done.
  eapply Forall2_impl; [exact Hv |]. intros v d.
  apply repr_in_weaken. by intros l [? _].
Qed.

Lemma root_inv_alloc h0 l0 h kvs kds t :
  root_inv h0 l0 h kvs kds → root_inv h0 l0 (h ++ t) kvs kds.
Proof.
  intros (Ht & Hn & Hl & Hnd & Hk & Hv).
  pose proof (lookup_lt_Some _ _ _ Hl).
  split_and!; try done.
  - rewrite take_app_le by lia. done.
  - by apply lookup_app_l_Some.
  - eapply Forall2_impl; [exact Hv |]. intros v d.
    apply repr_in_mono; [done |]. intros l o _ Ho. by apply lookup_app_l_Some.
Qed.

Lemma root_inv_contains h0 l0 h kvs kds k :
  root_inv h0 l0 h kvs kds →
  py_contains k (VRef l0) h = (h, Ok (dict_has k kds)).
Proof.
  intros (_ & _ & Hl & _ & Hk & _). unfold py_contains. rewrite Hl.
  by rewrite (dict_has_keys k kvs kds Hk).
Qed.

Lemma root_inv_setitem h0 l0 h kvs kds k nv nd :
  root_inv h0 l0 h kvs kds →
  repr_in (λ l, length h0 ≤ l ∧ l ≠ l0) h nv nd →
  ∃ h', py_setitem (VRef l0) k nv h = (h', Ok tt) ∧
        root_inv h0 l0 h' (dict_set k nv kvs) (dict_set k nd kds).
Proof.
  intros (Ht & Hn & Hl & Hnd & Hk & Hv) Hnv.
  pose proof (lookup_lt_Some _ _ _ Hl).
  eexists. split; [unfold py_setitem; by rewrite Hl |].
  assert (Hfr : ∀ v d, repr_in (λ l, length h0 ≤ l ∧ l ≠ l0) h v d →
                repr_in (λ l, length h0 ≤ l ∧ l ≠ l0)
                  (<[l0:=ODict (dict_set k nv kvs)]> h) v d).
  { intros v d. apply repr_in_frame. intros l [_ Hne].
    by apply list_lookup_insert_ne. }
  destruct (dict_set_rel
              (repr_in (λ l, length h0 ≤ l ∧ l ≠ l0)
                 (<[l0:=ODict (dict_set k nv kvs)]> h)) k nv nd kvs kds)
    as [Hk' Hv']; [done | | by apply Hfr |].
  { eapply Forall2_impl; [exact Hv | exact Hfr]. }
  split_and!; try done.
  - by rewrite take_insert_ge.
  - by apply list_lookup_insert_eq.
  - by apply dict_set_NoDup.
Qed.

Lemma id_only_oneOf_repr (P : nat → Prop) (h : heap) :
  (∀ l, length h ≤ l → P l) →
  repr_in P
    (h ++ [OList [VStr "id"; VStr "specVersion"; VStr "states"];
           ODict [("required", VRef (length h))];
           OList [VRef (S (length h))]])
    (VRef (S (S (length h)))) id_only_oneOf.
Proof.
  intros HP. unfold id_only_oneOf.
  eapply repr_arr; [apply HP; lia | |].
  { rewrite lookup_app_r by lia.
    by replace (S (S (length h)) - length h) with 2 by lia. }
  repeat constructor.
  eapply (repr_obj _ _ _ [("required", VRef (length h))]);
    [apply HP; lia | | apply NoDup_singleton | done |].
  { rewrite lookup_app_r by lia.
    by replace (S (length h) - length h) with 1 by lia. }
  repeat constructor.
  eapply repr_arr; [apply HP; lia | |].
  { rewrite lookup_app_r by lia. by rewrite Nat.sub_diag. }
  repeat constructor.
Qed.

Lemma narrow_tail_obj h0 l0 h kvs kds :
  root_inv h0 l0 h kvs kds →
  ∃ h' kvs',
    narrow_tail (VRef l0) h = (h', Ok (VRef l0)) ∧
    root_inv h0 l0 h' kvs'
      (let kds2 := if dict_has "oneOf" kds
                   then dict_set "oneOf" id_only_oneOf kds else kds in
       if dict_has "description" kds2
       then dict_set "description" (JStr id_only_description) kds2
       else kds2).
Proof.
  intros Hinv. unfold narrow_tail.
  rewrite (bind_ok _ _ _ _ _ (root_inv_contains _ _ _ _ _ "oneOf" Hinv)).
  assert (H2 : ∃ h2 kvs2,
    when (dict_has "oneOf" kds)
      (let! required :=
         alloc (OList [VStr "id"; VStr "specVersion"; VStr "states"]) in
       let! variant := alloc (ODict [("required", required)]) in
       let! variants := alloc (OList [variant]) in
       py_setitem (VRef l0) "oneOf" variants) h = (h2, Ok tt) ∧
    root_inv h0 l0 h2 kvs2
      (if dict_has "oneOf" kds
       then dict_set "oneOf" id_only_oneOf kds else kds)).
  { destruct (dict_has "oneOf" kds); simpl; [| by exists h, kvs].
    pose proof Hinv as (_ & Hn & Hl & _). pose proof (lookup_lt_Some _ _ _ Hl).
    destruct (root_inv_setitem h0 l0
                (h ++ [OList [VStr "id"; VStr "specVersion"; VStr "states"];
                       ODict [("required", VRef (length h))];
                       OList [VRef (S (length h))]])
                kvs kds "oneOf" (VRef (S (S (length h)))) id_only_oneOf)
      as (h2 & Hset & Hinv2);
      [by apply root_inv_alloc | apply id_only_oneOf_repr; intros; lia |].
    exists h2, (dict_set "oneOf" (VRef (S (S (length h)))) kvs).
    split; [| exact Hinv2]. rewrite <- Hset.
    cbv [bind alloc]. rewrite !length_app. cbn [length].
    replace (length h + 1 + 1) with (S (S (length h))) by lia.
    replace (length h + 1) with (S (length h)) by lia.
    by rewrite <- !app_assoc. }
  destruct H2 as (h2 & kvs2 & Hrun2 & Hinv2).
  rewrite (bind_ok _ _ _ _ _ Hrun2).
  rewrite (bind_ok _ _ _ _ _ (root_inv_contains _ _ _ _ _ "description" Hinv2)).
  simpl.
  destruct (dict_has "description" _); simpl.
  - edestruct root_inv_setitem as (h3 & Hset & Hinv3);
      [exact Hinv2 | apply repr_str |].
    rewrite (bind_ok _ _ _ _ _ Hset). by eexists _, _.
  - by eexists _, _.
Qed.

Lemma dict_get_elem {A} k (kvs : list (string * A)) v :
  dict_get k kvs = Some v → v ∈ kvs.*2.
Proof.
  induction kvs as [| [k0 v0] kvs IH]; csimpl; [done |].
  destruct (String.eqb k k0).
  - intros [= ->]. by left.
  - intros Hv. right. by apply IH.
Qed.

(** Deleting a key of the dict held under [k] in a freshly loaded object:
    the other members do not see it. *)
Lemma children_del (k kk : string) (h : heap) hi lp pvs :
  h !! lp = Some (ODict pvs) →
  ∀ kvs kds lo,
    kvs.*1 = kds.*1 → NoDup kvs.*1 →
    trees_in h lo hi kvs.*2 kds.*2 →
    dict_get k kvs = Some (VRef lp) →
    ∃ ps, dict_get k kds = Some (JObj ps) ∧ pvs.*1 = ps.*1 ∧
          Forall2 (repr_in (λ l, lo ≤ l < hi) (<[lp:=ODict (dict_del kk pvs)]> h))
            kvs.*2 (dict_replace k (JObj (dict_del kk ps)) kds).*2.
Proof.
  intros Hlp. pose proof (lookup_lt_Some _ _ _ Hlp) as Hlen.
  induction kvs as [| [k0 v0] kvs IH]; intros [| [k1 d0] kds] lo Hk Hnd Ht Hget;
    csimpl in *; try discriminate.
  injection Hk as <- Hk. apply NoDup_cons in Hnd as [Hk0 Hnd].
  inversion Ht as [| ? mid ? ? ? ? ? Hhead Htail]; subst.
  pose proof (proj1 (tree_in_le h) _ _ _ _ Hhead) as Hle1.
  pose proof (proj2 (tree_in_le h) _ _ _ _ Htail) as Hle2.
  destruct (String.eqb_spec k k0) as [-> | Hne].
  - injection Hget as ->.
    inversion Hhead as [| | | | | | ? ? ? pvs' ps Hlt Hlp' Hndp Hkp Htp]; subst;
      [congruence |].
    rewrite Hlp in Hlp'. injection Hlp' as <-.
    pose proof (proj2 (tree_in_le h) _ _ _ _ Htp) as Hle3.
    exists ps. split_and!; [done.. |].
    rewrite dict_replace_absent by congruence.
    constructor.
    + destruct (dict_del_rel
                  (repr_in (λ l, lo ≤ l < hi) (<[lp:=ODict (dict_del kk pvs)]> h))
                  kk pvs ps) as [Hk' Hv']; [done | |].
      { apply tree_in_repr in Htp. eapply Forall2_impl; [exact Htp |].
        intros v d. apply repr_in_mono; [intros; lia |].
        intros l o Hl Ho. rewrite list_lookup_insert_ne; [done | lia]. }
      apply repr_obj with (dict_del kk pvs); [lia | | | done..].
      * by apply list_lookup_insert_eq.
      * by apply dict_del_NoDup.
    + apply tree_in_repr in Htail. eapply Forall2_impl; [exact Htail |].
      intros v d. apply repr_in_mono; [intros; lia |].
      intros l o Hl Ho. rewrite list_lookup_insert_ne; [done | lia].
  - destruct (IH kds mid Hk Hnd Htail Hget) as (ps & Hps & Hkp & Hvs).
    exists ps. split_and!; [done.. |].
    pose proof (trees_in_member _ _ _ _ _ lp Htail (dict_get_elem _ _ _ Hget)).
    constructor.
    + apply (proj1 (tree_in_repr h)) in Hhead. revert Hhead.
      apply repr_in_mono; [intros; lia |].
      intros l o Hl Ho. rewrite list_lookup_insert_ne; [done | lia].
    + eapply Forall2_impl; [exact Hvs |].
      intros v d. apply repr_in_weaken. intros; lia.
Qed.

Lemma existsb_is_str (P : nat → Prop) (h : heap) k vs ds :
  Forall2 (repr_in P h) vs ds →
  existsb (val_is_str k) vs = existsb (doc_is_str k) ds.
Proof.
  induction 1 as [| v d vs ds Hvd _ IH]; simpl; [done |].
  rewrite IH. f_equal. by inversion Hvd.
Qed.

Lemma filter_unfold schema_dict :
  filter_schema_for_id_workflows schema_dict =
    (let! text := json_dumps schema_dict in
     let! filtered_schema := json_loads text in
     edit_copy filtered_schema).
Proof. reflexivity. Qed.

Lemma json_dumps_repr (h : heap) v d :
  repr h v d → ints_fit d = true → json_dumps v h = (h, Ok d).
Proof.
  intros Hr Hf. pose proof (repr_read h v d Hr Hf) as H.
  unfold json_dumps. unfold read in H. by rewrite H.
Qed.

Lemma json_dumps_long_int (h : heap) v d :
  repr h v d → ints_fit d = false → json_dumps v h = (h, Raise ValueError).
Proof.
  intros Hr Hf. pose proof (repr_read_any h v d Hr) as H. rewrite Hf in H.
  unfold json_dumps. unfold read in H. by rewrite H.
Qed.

(** A root that is no dict: every test is a search, every edit a
    [TypeError]. *)
Lemma edit_copy_other (v : val) (h : heap) (cont : string → bool) :
  (∀ k t, py_contains k v (h ++ t) = (h ++ t, Ok (cont k))) →
  (∀ k t, py_getitem v k (h ++ t) = (h ++ t, Raise TypeError)) →
  (∀ k nv t, py_setitem v k nv (h ++ t) = (h ++ t, Raise TypeError)) →
  ∃ t, edit_copy v h =
         (h ++ t,
          if (cont "properties" || cont "oneOf" || cont "description")%bool
          then Raise TypeError else Ok v).
Proof.
  intros Hc Hg Hs.
  assert (Hc0 := λ k, Hc k []). assert (Hg0 := λ k, Hg k []).
  assert (Hs0 := λ k nv, Hs k nv []). rewrite app_nil_r in Hc0, Hg0, Hs0.
  unfold edit_copy. rewrite (bind_ok _ _ _ _ _ (Hc0 "properties")).
  destruct (cont "properties"); simpl.
  { exists []. rewrite app_nil_r.
    erewrite bind_raise; [done |]. by erewrite bind_raise. }
  rewrite (bind_ok _ _ _ _ _ (eq_refl : ret false h = (h, Ok false))). simpl.
  rewrite (bind_ok _ _ _ _ _ (eq_refl : ret tt h = (h, Ok tt))).
  unfold narrow_tail. rewrite (bind_ok _ _ _ _ _ (Hc0 "oneOf")).
  destruct (cont "oneOf"); simpl.
  { eexists. erewrite bind_raise; [done |].
    cbv [bind alloc]. rewrite <- !app_assoc. apply Hs. }
  rewrite (bind_ok _ _ _ _ _ (eq_refl : ret tt h = (h, Ok tt))).
  rewrite (bind_ok _ _ _ _ _ (Hc0 "description")).
  exists []. rewrite app_nil_r.
  destruct (cont "description"); simpl.
  - erewrite bind_raise; [done |]. apply Hs0.
  - done.
Qed.

Lemma root_inv_init h0 h1 l0 kvs kds :
  take (length h0) h1 = h0 →
  h1 !! l0 = Some (ODict kvs) → NoDup kvs.*1 → kvs.*1 = kds.*1 →
  trees_in h1 (length h0) l0 kvs.*2 kds.*2 →
  root_inv h0 l0 h1 kvs kds.
Proof.
  intros Htk Hl Hnd Hk Ht.
  pose proof (proj2 (tree_in_le h1) _ _ _ _ Ht).
  split_and!; try done.
  apply tree_in_repr in Ht. eapply Forall2_impl; [exact Ht |].
  intros v d. apply repr_in_weaken. intros; lia.
Qed.

Lemma edit_copy_finish h0 l0 h kvs kds :
  root_inv h0 l0 h kvs kds →
  ∃ h', narrow_tail (VRef l0) h = (h', Ok (VRef l0)) ∧
        take (length h0) h' = h0 ∧
        repr_in (λ l, length h0 ≤ l) h' (VRef l0)
          (JObj
             (let kds2 := if dict_has "oneOf" kds
                          then dict_set "oneOf" id_only_oneOf kds else kds in
              if dict_has "description" kds2
              then dict_set "description" (JStr id_only_description) kds2
              else kds2)).
Proof.
  intros Hinv. destruct (narrow_tail_obj _ _ _ _ _ Hinv) as (h' & kvs' & Hrun & Hinv').
  exists h'. split_and!; [done | apply Hinv' | by eapply root_inv_fresh].
Qed.

Lemma edit_copy_obj h0 h1 l0 kvs kds :
  take (length h0) h1 = h0 →
  h1 !! l0 = Some (ODict kvs) → NoDup kvs.*1 → kvs.*1 = kds.*1 →
  trees_in h1 (length h0) l0 kvs.*2 kds.*2 →
  ∃ h' r, edit_copy (VRef l0) h1 = (h', r) ∧ take (length h0) h' = h0 ∧
          match filter_doc (JObj kds) with
          | Ok d' => r = Ok (VRef l0) ∧ repr_in (λ l, length h0 ≤ l) h' (VRef l0) d'
          | Raise e => r = Raise e
          end.
Proof.
  intros Htk Hl Hnd Hk Ht.
  pose proof (root_inv_init _ _ _ _ _ Htk Hl Hnd Hk Ht) as Hinv.
  pose proof (proj2 (tree_in_le h1) _ _ _ _ Ht) as Hle.
  pose proof (dict_get_rel (repr_in (λ l, length h0 ≤ l < l0) h1) "properties"
                kvs kds Hk (proj2 (tree_in_repr h1) _ _ _ _ Ht)) as Hrel.
  unfold edit_copy.
  rewrite (bind_ok _ _ _ _ _ (root_inv_contains _ _ _ _ _ "properties" Hinv)).
  unfold filter_doc, dict_has at 1.
  destruct (dict_get "properties" kvs) as [vp |] eqn:Hgv;
    destruct (dict_get "properties" kds) as [p |] eqn:Hgd; try done.
  2:{ rewrite (bind_ok _ _ _ _ _ (eq_refl : ret false h1 = (h1, Ok false))).
      simpl. rewrite (bind_ok _ _ _ _ _ (eq_refl : ret tt h1 = (h1, Ok tt))).
      destruct (edit_copy_finish _ _ _ _ _ Hinv) as (h' & Hrun & Htk' & Hr).
      by exists h', (Ok (VRef l0)). }
  assert (Hget : py_getitem (VRef l0) "properties" h1 = (h1, Ok vp)).
  { unfold py_getitem. by rewrite Hl, Hgv. }
  assert (Hhk : (let! properties := py_getitem (VRef l0) "properties" in
                 py_contains "key" properties) h1 = py_contains "key" vp h1)
    by exact (bind_ok _ (λ properties, py_contains "key" properties) _ _ _ Hget).
  assert (Hdel : (let! properties := py_getitem (VRef l0) "properties" in
                  py_delitem properties "key") h1 = py_delitem vp "key" h1)
    by exact (bind_ok _ (λ properties, py_delitem properties "key") _ _ _ Hget).
  assert (Hfinish : ∀ h kvs' kds',
            root_inv h0 l0 h kvs' kds' →
            ∃ h' r, narrow_tail (VRef l0) h = (h', r) ∧ take (length h0) h' = h0 ∧
              r = Ok (VRef l0) ∧
              repr_in (λ l, length h0 ≤ l) h' (VRef l0)
                (JObj
                   (let kds2 := if dict_has "oneOf" kds'
                                then dict_set "oneOf" id_only_oneOf kds' else kds' in
                    if dict_has "description" kds2
                    then dict_set "description" (JStr id_only_description) kds2
                    else kds2))).
  { intros h kvs' kds' Hinv'.
    destruct (edit_copy_finish _ _ _ _ _ Hinv') as (h' & Hrun & Htk' & Hr).
    by exists h', (Ok (VRef l0)). }
  assert (Hno : py_contains "key" vp h1 = (h1, Ok false) →
            ∃ h' r,
              (let! has_key :=
                 (let! properties := py_getitem (VRef l0) "properties" in
                  py_contains "key" properties) in
               let! _ := when has_key
                           (let! properties := py_getitem (VRef l0) "properties" in
                            py_delitem properties "key") in
               narrow_tail (VRef l0)) h1 = (h', r) ∧
              take (length h0) h' = h0 ∧ r = Ok (VRef l0) ∧
              repr_in (λ l, length h0 ≤ l) h' (VRef l0)
                (JObj
                   (let kds2 := if dict_has "oneOf" kds
                                then dict_set "oneOf" id_only_oneOf kds else kds in
                    if dict_has "description" kds2
                    then dict_set "description" (JStr id_only_description) kds2
                    else kds2))).
  { intros Hc. rewrite (bind_ok _ _ _ _ _ (eq_trans Hhk Hc)). simpl.
    rewrite (bind_ok _ _ _ _ _ (eq_refl : ret tt h1 = (h1, Ok tt))).
    by apply (Hfinish h1 kvs kds). }
  assert (Hbad : py_contains "key" vp h1 = (h1, Raise TypeError) ∨
                 (py_contains "key" vp h1 = (h1, Ok true) ∧
                  py_delitem vp "key" h1 = (h1, Raise TypeError)) →
            ∃ h' r,
              (let! has_key :=
                 (let! properties := py_getitem (VRef l0) "properties" in
                  py_contains "key" properties) in
               let! _ := when has_key
                           (let! properties := py_getitem (VRef l0) "properties" in
                            py_delitem properties "key") in
               narrow_tail (VRef l0)) h1 = (h', r) ∧
              take (length h0) h' = h0 ∧ r = Raise TypeError).
  { intros [Hc | [Hc Hd]]; exists h1, (Raise TypeError); (split; [| done]).
    - by rewrite (bind_raise _ _ _ _ _ (eq_trans Hhk Hc)).
    - rewrite (bind_ok _ _ _ _ _ (eq_trans Hhk Hc)). simpl.
      by rewrite (bind_raise _ _ _ _ _ (eq_trans Hdel Hd)). }
  inversion Hrel; subst; simpl.
  1-4: by apply Hbad; left.
  - destruct (is_substring "key" s) eqn:Hs.
    + apply Hbad. right. simpl. by rewrite Hs.
    + destruct Hno as (h' & r & ? & ? & ? & ?); [simpl; by rewrite Hs |].
      by exists h', r.
  - match goal with H : h1 !! _ = Some (OList _) |- _ => rename H into Hlp end.
    match goal with H : Forall2 _ _ _ |- _ => rename H into Hvs end.
    rewrite <- (existsb_is_str _ _ "key" _ _ Hvs).
    destruct (existsb (val_is_str "key") vs) eqn:Hs.
    + apply Hbad. right. unfold py_contains, py_delitem. by rewrite Hlp, Hs.
    + destruct Hno as (h' & r & ? & ? & ? & ?);
        [unfold py_contains; by rewrite Hlp, Hs |].
      by exists h', r.
  -     match goal with H : ?x.*1 = ?y.*1, H' : h1 !! _ = Some (ODict ?x) |- _ =>
      rename H into Hkp; rename H' into Hlp; rename x into pvs; rename y into ps
    end.
    assert (Hhas : dict_has "key" pvs = dict_has "key" ps)
      by by apply dict_has_keys.
    destruct (dict_has "key" ps) eqn:Hkey.
    + assert (Hc : py_contains "key" (VRef l) h1 = (h1, Ok true)).
      { unfold py_contains. by rewrite Hlp, Hhas. }
      assert (Hd : py_delitem (VRef l) "key" h1 =
                     (<[l:=ODict (dict_del "key" pvs)]> h1, Ok tt)).
      { unfold py_delitem. by rewrite Hlp, Hhas. }
      rewrite (bind_ok _ _ _ _ _ (eq_trans Hhk Hc)). simpl.
      rewrite (bind_ok _ _ _ _ _ (eq_trans Hdel Hd)).
      destruct (children_del "properties" "key" h1 l0 l pvs Hlp kvs kds
                  (length h0) Hk Hnd Ht Hgv) as (ps' & Hps' & _ & Hch).
      rewrite Hgd in Hps'. injection Hps' as <-.
      assert (Hset : dict_set "properties" (JObj (dict_del "key" ps)) kds
                     = dict_replace "properties" (JObj (dict_del "key" ps)) kds).
      { unfold dict_set, dict_has. by rewrite Hgd. }
      rewrite Hset. apply (Hfinish _ kvs).
      split_and!; try done.
      * rewrite take_insert_ge; [done | lia].
      * rewrite list_lookup_insert_ne; [done | lia].
      * by rewrite dict_replace_keys.
      * eapply Forall2_impl; [exact Hch |]. intros v d.
        apply repr_in_weaken. intros; lia.
    + apply Hno. unfold py_contains. by rewrite Hlp, Hhas.
Qed.

(** [filter_schema_for_id_workflows] computes [filter_doc] on a copy: the
    store only grows, and the result spells the filtered document through
    objects made by the call. *)
Lemma filter_denotes_fresh (h : heap) v d :
  repr h v d → ints_fit d = true →
  ∃ h' r,
    filter_schema_for_id_workflows v h = (h', r) ∧
    (∃ t, h' = h ++ t) ∧
    match filter_doc d with
    | Ok d' => ∃ v', r = Ok v' ∧ repr_in (λ l, length h ≤ l) h' v' d'
    | Raise e => r = Raise e
    end.
Proof.
  intros Hr Hf. rewrite filter_unfold.
  rewrite (bind_ok _ _ _ _ _ (json_dumps_repr _ _ _ Hr Hf)).
  destruct (json_loads_tree _ _ _ _ Hr Hf h) as (v0 & t & Hload & Htree).
  rewrite (bind_ok _ _ _ _ _ Hload).
  assert (Hother : ∀ cont : string → bool,
            (∀ k t', py_contains k v0 ((h ++ t) ++ t') = ((h ++ t) ++ t', Ok (cont k))) →
            (∀ k t', py_getitem v0 k ((h ++ t) ++ t') = ((h ++ t) ++ t', Raise TypeError)) →
            (∀ k nv t', py_setitem v0 k nv ((h ++ t) ++ t')
                        = ((h ++ t) ++ t', Raise TypeError)) →
            (∀ t', repr_in (λ l, length h ≤ l) ((h ++ t) ++ t') v0 d) →
            ∃ h' r, edit_copy v0 (h ++ t) = (h', r) ∧ (∃ t, h' = h ++ t) ∧
              match cont "properties", cont "oneOf", cont "description" with
              | false, false, false =>
                  ∃ v', r = Ok v' ∧ repr_in (λ l, length h ≤ l) h' v' d
              | _, _, _ => r = Raise TypeError
              end).
  { intros cont Hc Hg Hs Hrep.
    destruct (edit_copy_other v0 (h ++ t) cont Hc Hg Hs) as (t' & Hrun).
    eexists _, _. split; [exact Hrun |]. split; [exists (t ++ t'); by rewrite app_assoc |].
    destruct (cont "properties"), (cont "oneOf"), (cont "description"); simpl; try done.
    eexists; split; [done | apply Hrep]. }
  inversion Htree; subst.
  1-4: by (exists (h ++ t), (Raise TypeError); split_and!; [done | by exists t | done]).
  - destruct (Hother (λ k, is_substring k s)) as (h' & r & Hrun & Hpre & Hres);
      [done.. | intros t'; constructor |].
    exists h', r. split_and!; [done.. |]. simpl in *.
    by destruct (is_substring "properties" s), (is_substring "oneOf" s),
      (is_substring "description" s).
  - match goal with H : _ !! _ = Some (OList _) |- _ => rename H into Hl end.
    match goal with H : trees_in _ _ _ _ _ |- _ => rename H into Hts end.
    destruct (Hother (λ k, existsb (doc_is_str k) ds))
      as (h' & r & Hrun & Hpre & Hres);
      [.. | exists h', r; split_and!; [done.. |]; simpl in *;
            by destruct (existsb (doc_is_str "properties") ds),
              (existsb (doc_is_str "oneOf") ds),
              (existsb (doc_is_str "description") ds)].
    + intros k t'. unfold py_contains.
      rewrite (lookup_app_l_Some _ _ _ _ Hl).
      by rewrite (existsb_is_str _ _ k _ _ (proj2 (tree_in_repr _) _ _ _ _ Hts)).
    + intros k t'. unfold py_getitem. by rewrite (lookup_app_l_Some _ _ _ _ Hl).
    + intros k nv t'. unfold py_setitem. by rewrite (lookup_app_l_Some _ _ _ _ Hl).
    + intros t'. apply (proj1 (tree_in_repr _)) in Htree.
      revert Htree. apply repr_in_mono; [intros; lia |].
      intros l' o _ Ho. by apply lookup_app_l_Some.
  - match goal with H : _ !! _ = Some (ODict _) |- _ => rename H into Hl end.
    match goal with H : trees_in _ _ _ _ _ |- _ => rename H into Hts end.
    edestruct (edit_copy_obj h (h ++ t)) as (h' & r & Hrun & Htk & Hres);
      [by rewrite take_app_length | exact Hl | done | done | exact Hts |].
    exists h', r. split_and!; [done | |].
    + exists (drop (length h) h'). rewrite <- (take_drop (length h) h') at 1.
      by rewrite Htk.
    + destruct (filter_doc (JObj kds)); [| done].
      destruct Hres as [-> Hrep]. by eexists.
Qed.

(** ** The filter on schema documents *)

Lemma filter_denotes (h : heap) v d :
  repr h v d → ints_fit d = true →
  ∃ h' r,
    filter_schema_for_id_workflows v h = (h', r) ∧
    (∃ t, h' = h ++ t) ∧
    match filter_doc d with
    | Ok d' => ∃ v', r = Ok v' ∧ repr h' v' d'
    | Raise e => r = Raise e
    end.
Proof.
  intros Hr Hf.
  destruct (filter_denotes_fresh h v d Hr Hf) as (h' & r & Hrun & Hpre & Hres).
  exists h', r. split_and!; [done.. |].
  destruct (filter_doc d); [| done]. destruct Hres as (v' & -> & Hr').
  exists v'. split; [done |]. revert Hr'. by apply repr_in_weaken.
Qed.

(** An integer too long to write stops the filter at the copy: the
    encoder's [ValueError] comes out and the store is as it was. *)
Lemma filter_long_int (h : heap) v d :
  repr h v d → ints_fit d = false →
  filter_schema_for_id_workflows v h = (h, Raise ValueError).
Proof.
  intros Hr Hf. rewrite filter_unfold.
  apply bind_raise. by apply json_dumps_long_int with d.
Qed.

(** The edits keep every integer of the document writable. *)
Lemma forallb_dict_del (f : json → bool) k (kds : list (string * json)) :
  forallb (λ kd, f kd.2) kds = true →
  forallb (λ kd, f kd.2) (dict_del k kds) = true.
Proof.
  induction kds as [| [k0 d0] kds IH]; simpl; [done |].
  intros [Hd Hr]%andb_true_iff. destruct (String.eqb k k0); [by apply IH |].
  simpl. by rewrite Hd, IH.
Qed.

Lemma forallb_dict_set (f : json → bool) k d (kds : list (string * json)) :
  f d = true → forallb (λ kd, f kd.2) kds = true →
  forallb (λ kd, f kd.2) (dict_set k d kds) = true.
Proof.
  intros Hd Hf. unfold dict_set. destruct (dict_has k kds).
  - induction kds as [| [k0 d0] kds IH]; simpl in *; [done |].
    apply andb_true_iff in Hf as [Hd0 Hf]. rewrite (IH Hf).
    by destruct (String.eqb k k0); rewrite ?Hd, ?Hd0.
  - rewrite forallb_app, Hf. simpl. by rewrite Hd.
Qed.

Lemma forallb_dict_get (f : json → bool) k d (kds : list (string * json)) :
  forallb (λ kd, f kd.2) kds = true → dict_get k kds = Some d → f d = true.
Proof.
  induction kds as [| [k0 d0] kds IH]; simpl; [done |].
  intros [Hd Hr]%andb_true_iff. destruct (String.eqb k k0); [| by apply IH].
  by intros [= <-].
Qed.

Lemma filtered_members_ints_fit kds :
  ints_fit (JObj kds) = true → ints_fit (JObj (filtered_members kds)) = true.
Proof.
  simpl. intros Hf. unfold filtered_members, annotate, narrow_oneOf.
  assert (Hs : forallb (λ kd, ints_fit kd.2) (strip_key kds) = true).
  { unfold strip_key.
    destruct (dict_get "properties" kds) as [[| | | | | | ps] |] eqn:E; try done.
    destruct (dict_has "key" ps); [| done].
    apply forallb_dict_set; [| done]. simpl. apply forallb_dict_del.
    apply (forallb_dict_get ints_fit _ _ _ Hf E). }
  destruct (dict_has "oneOf" (strip_key kds)).
  - destruct (dict_has "description" _);
      repeat (apply forallb_dict_set; [done |]); done.
  - destruct (dict_has "description" _);
      repeat (apply forallb_dict_set; [done |]); done.
Qed.

Lemma filter_doc_schema kds :
  schema_document (JObj kds) →
  filter_doc (JObj kds) = Ok (JObj (filtered_members kds)).
Proof.
  unfold schema_document, filter_doc, filtered_members, annotate, narrow_oneOf,
    strip_key.
  by destruct (dict_get "properties" kds) as [[] |].
Qed.

Lemma filter_schema_run (h : heap) v kds :
  repr h v (JObj kds) → schema_document (JObj kds) →
  ints_fit (JObj kds) = true →
  ∃ h' v',
    filter_schema_for_id_workflows v h = (h', Ok v') ∧
    (∃ t, h' = h ++ t) ∧
    repr h' v' (JObj (filtered_members kds)).
Proof.
  intros Hr Hs Hf.
  destruct (filter_denotes h v _ Hr Hf) as (h' & r & Hrun & Hpre & Hres).
  rewrite (filter_doc_schema kds Hs) in Hres. destruct Hres as (v' & -> & Hr').
  by exists h', v'.
Qed.

Lemma repr_obj_NoDup (P : nat → Prop) (h : heap) v kds :
  repr_in P h v (JObj kds) → NoDup kds.*1.
Proof. inversion 1; subst. congruence. Qed.

Section dict_more.
Context {A : Type}.
Implicit Types (k : string) (kvs : list (string * A)).

Lemma dict_del_absent k kvs : dict_has k kvs = false → dict_del k kvs = kvs.
Proof.
  intros Hk%dict_has_false.
  induction kvs as [| [k0 v0] kvs IH]; csimpl in *; [done |].
  apply not_elem_of_cons in Hk as [Hne Hk].
  destruct (String.eqb_spec k k0); [done |]. by rewrite IH.
Qed.

Lemma dict_has_del k kvs : dict_has k (dict_del k kvs) = false.
Proof. unfold dict_has. by rewrite dict_get_del_eq. Qed.

Lemma dict_set_present_keys k v kvs :
  dict_has k kvs = true → (dict_set k v kvs).*1 = kvs.*1.
Proof. intros Hk. by rewrite dict_set_keys, Hk. Qed.

Lemma dict_replace_same k v kvs :
  NoDup kvs.*1 → dict_get k kvs = Some v → dict_replace k v kvs = kvs.
Proof.
  induction kvs as [| [k0 v0] kvs IH]; csimpl; [done |].
  intros [Hk0 Hnd]%NoDup_cons. destruct (String.eqb_spec k k0) as [-> | Hne].
  - intros [= ->]. by rewrite dict_replace_absent.
  - intros Hg. by rewrite IH.
Qed.

Lemma dict_set_same k v kvs :
  NoDup kvs.*1 → dict_get k kvs = Some v → dict_set k v kvs = kvs.
Proof.
  intros Hnd Hg. unfold dict_set, dict_has. rewrite Hg.
  by apply dict_replace_same.
Qed.
End dict_more.

Lemma strip_key_keys kds : (strip_key kds).*1 = kds.*1.
Proof.
  unfold strip_key. destruct (dict_get "properties" kds) as [[] |] eqn:E; try done.
  destruct (dict_has "key" members); [| done].
  apply dict_set_present_keys. unfold dict_has. by rewrite E.
Qed.

Lemma narrow_oneOf_keys kds : (narrow_oneOf kds).*1 = kds.*1.
Proof.
  unfold narrow_oneOf. destruct (dict_has "oneOf" kds) eqn:E; [| done].
  by apply dict_set_present_keys.
Qed.

Lemma annotate_keys kds : (annotate kds).*1 = kds.*1.
Proof.
  unfold annotate. destruct (dict_has "description" kds) eqn:E; [| done].
  by apply dict_set_present_keys.
Qed.

Lemma filtered_members_keys kds : (filtered_members kds).*1 = kds.*1.
Proof.
  unfold filtered_members.
  by rewrite annotate_keys, narrow_oneOf_keys, strip_key_keys.
Qed.

Lemma strip_key_get k kds :
  k ≠ "properties" → dict_get k (strip_key kds) = dict_get k kds.
Proof.
  intros Hne. unfold strip_key.
  destruct (dict_get "properties" kds) as [[] |]; try done.
  destruct (dict_has "key" members); [| done]. by apply dict_get_set_ne.
Qed.

Lemma narrow_oneOf_get k kds :
  k ≠ "oneOf" → dict_get k (narrow_oneOf kds) = dict_get k kds.
Proof.
  intros Hne. unfold narrow_oneOf. destruct (dict_has "oneOf" kds); [| done].
  by apply dict_get_set_ne.
Qed.

Lemma annotate_get k kds :
  k ≠ "description" → dict_get k (annotate kds) = dict_get k kds.
Proof.
  intros Hne. unfold annotate. destruct (dict_has "description" kds); [| done].
  by apply dict_get_set_ne.
Qed.

Lemma filtered_members_other k kds :
  k ≠ "properties" → k ≠ "oneOf" → k ≠ "description" →
  dict_get k (filtered_members kds) = dict_get k kds.
Proof.
  intros. unfold filtered_members.
  by rewrite annotate_get, narrow_oneOf_get, strip_key_get.
Qed.

Lemma filtered_members_oneOf kds :
  dict_get "oneOf" (filtered_members kds) =
    if dict_has "oneOf" kds then Some id_only_oneOf else None.
Proof.
  unfold filtered_members. rewrite annotate_get by done.
  unfold narrow_oneOf.
  rewrite (dict_has_keys "oneOf" (strip_key kds) kds (strip_key_keys kds)).
  destruct (dict_has "oneOf" kds) eqn:E.
  - apply dict_get_set_eq.
  - rewrite strip_key_get by done. unfold dict_has in E.
    by destruct (dict_get "oneOf" kds).
Qed.

Lemma filtered_members_description kds :
  dict_get "description" (filtered_members kds) =
    if dict_has "description" kds then Some (JStr id_only_description) else None.
Proof.
  unfold filtered_members, annotate.
  rewrite (dict_has_keys "description" (narrow_oneOf (strip_key kds)) kds)
    by by rewrite narrow_oneOf_keys, strip_key_keys.
  destruct (dict_has "description" kds) eqn:E.
  - apply dict_get_set_eq.
  - rewrite narrow_oneOf_get, strip_key_get by done. unfold dict_has in E.
    by destruct (dict_get "description" kds).
Qed.

Lemma filtered_members_properties kds :
  dict_get "properties" (filtered_members kds) =
    match dict_get "properties" kds with
    | Some (JObj ps) => Some (JObj (dict_del "key" ps))
    | other => other
    end.
Proof.
  unfold filtered_members. rewrite annotate_get, narrow_oneOf_get by done.
  unfold strip_key. destruct (dict_get "properties" kds) as [[] |] eqn:E; try done.
  destruct (dict_has "key" members) eqn:Hk.
  - apply dict_get_set_eq.
  - by rewrite dict_del_absent.
Qed.

Lemma filtered_members_untouched kds :
  match dict_get "properties" kds with
  | Some (JObj ps) => dict_has "key" ps = false
  | _ => True
  end →
  dict_has "oneOf" kds = false → dict_has "description" kds = false →
  filtered_members kds = kds.
Proof.
  intros Hp Ho Hd. unfold filtered_members, annotate, narrow_oneOf.
  assert (Hs : strip_key kds = kds).
  { unfold strip_key. destruct (dict_get "properties" kds) as [[] |]; try done.
    by rewrite Hp. }
  by rewrite Hs, Ho, Hd.
Qed.

Lemma filtered_members_idem kds :
  NoDup kds.*1 → filtered_members (filtered_members kds) = filtered_members kds.
Proof.
  intros Hnd.
  assert (Hnd' : NoDup (filtered_members kds).*1)
    by by rewrite filtered_members_keys.
  pose proof (filtered_members_properties kds) as Hp.
  pose proof (filtered_members_oneOf kds) as Ho.
  pose proof (filtered_members_description kds) as Hd.
  set (m := filtered_members kds) in *.
  assert (Hs : strip_key m = m).
  { unfold strip_key. destruct (dict_get "properties" m) as [[] |]; try done.
    destruct (dict_get "properties" kds) as [[] |]; try done.
    injection Hp as ->. by rewrite dict_has_del. }
  assert (Hn : narrow_oneOf m = m).
  { unfold narrow_oneOf. destruct (dict_has "oneOf" m) eqn:E; [| done].
    apply dict_set_same; [done |]. rewrite Ho.
    unfold dict_has in E. rewrite Ho in E. by destruct (dict_has "oneOf" kds). }
  assert (Ha : annotate m = m).
  { unfold annotate. destruct (dict_has "description" m) eqn:E; [| done].
    apply dict_set_same; [done |]. rewrite Hd.
    unfold dict_has in E. rewrite Hd in E. by destruct (dict_has "description" kds). }
  unfold filtered_members at 1. fold m. by rewrite Hs, Hn, Ha.
Qed.

Lemma filtered_members_schema kds :
  schema_document (JObj kds) → schema_document (JObj (filtered_members kds)).
Proof.
  unfold schema_document. rewrite filtered_members_properties.
  by destruct (dict_get "properties" kds) as [[] |].
Qed.

(** * The claims *)

(** ** Example stores *)

Ltac solve_repr :=
  repeat match goal with
    | |- repr_in _ _ (VRef _) (JArr _) =>
        eapply repr_arr; [exact I | reflexivity |]
    | |- repr_in _ _ (VRef _) (JObj _) =>
        eapply repr_obj; [exact I | reflexivity | compute_done | reflexivity |]
    | |- repr_in _ _ _ _ => constructor
    | |- Forall2 _ _ _ => cbn [fmap list_fmap snd]; constructor
    end.

Lemma scenario_store_repr : repr scenario_store scenario_root scenario_doc.
Proof. unfold scenario_store, scenario_root, scenario_doc. solve_repr. Qed.

Lemma scenario_doc_schema : schema_document scenario_doc.
Proof. exact I. Qed.

(** ** The filter *)

(** C1, as the code has it.  On a schema document with a root [oneOf] the
    result's [oneOf] is [[{"required": ["id","specVersion","states"]}]],
    whatever the original [oneOf] was; on one without, the result has no
    [oneOf] either.  (The document is one [json.dumps] can write: no
    integer of more than 4300 digits.) *)
Theorem oneOf_narrowing (h : heap) v kds :
  repr h v (JObj kds) → schema_document (JObj kds) →
  ints_fit (JObj kds) = true →
  ∃ h' v' kds',
    filter_schema_for_id_workflows v h = (h', Ok v') ∧
    repr h' v' (JObj kds') ∧
    dict_get "oneOf" kds' =
      if dict_has "oneOf" kds then Some id_only_oneOf else None.
Proof.
  intros Hr Hs Hf.
  destruct (filter_schema_run h v kds Hr Hs Hf) as (h' & v' & Hrun & _ & Hr').
  exists h', v', (filtered_members kds). split_and!; [done.. |].
  apply filtered_members_oneOf.
Qed.

Lemma oneOf_narrowing_witness :
  repr scenario_store scenario_root scenario_doc ∧
  schema_document scenario_doc ∧
  ints_fit scenario_doc = true ∧
  ∃ h' v' kds',
    filter_schema_for_id_workflows scenario_root scenario_store = (h', Ok v') ∧
    repr h' v' (JObj kds') ∧
    dict_get "oneOf" kds' = Some id_only_oneOf.
Proof.
  split; [exact scenario_store_repr |]. split; [exact scenario_doc_schema |].
  split; [reflexivity |].
  exact (oneOf_narrowing scenario_store scenario_root _
           scenario_store_repr scenario_doc_schema eq_refl).
Defined.

(** C1 as stated fails on the empty object [{}]: the result is [{}] again,
    without [oneOf]. *)
Lemma oneOf_narrowing_empty_object :
  repr [ODict []] (VRef 0) (JObj []) ∧
  filter_schema_for_id_workflows (VRef 0) [ODict []]
    = ([ODict []; ODict []], Ok (VRef 1)) ∧
  repr [ODict []; ODict []] (VRef 1) (JObj []) ∧
  (∀ kds', repr [ODict []; ODict []] (VRef 1) (JObj kds') →
           dict_get "oneOf" kds' ≠ Some id_only_oneOf).
Proof.
  assert (Hr : repr [ODict []; ODict []] (VRef 1) (JObj [])) by solve_repr.
  split_and!; [solve_repr | reflexivity | exact Hr |].
  intros kds' Hr'.
  pose proof (repr_in_functional _ _ _ _ _ _ Hr Hr') as [= <-]. done.
Qed.

(** C2. Filtering the result of the filter gives the same document
    again.  (A valid document is a schema document that [json.dumps] can
    write: no integer of more than 4300 digits.) *)
Theorem filter_idempotent (h : heap) v d :
  repr h v d → schema_document d → ints_fit d = true →
  ∃ h1 v1 h2 v2 d1,
    filter_schema_for_id_workflows v h = (h1, Ok v1) ∧
    filter_schema_for_id_workflows v1 h1 = (h2, Ok v2) ∧
    repr h1 v1 d1 ∧ repr h2 v2 d1.
Proof.
  intros Hr Hs Hf. destruct d as [| | | | | | kds]; try done.
  destruct (filter_schema_run h v kds Hr Hs Hf) as (h1 & v1 & Hrun1 & _ & Hr1).
  destruct (filter_schema_run h1 v1 _ Hr1 (filtered_members_schema kds Hs)
              (filtered_members_ints_fit kds Hf))
    as (h2 & v2 & Hrun2 & _ & Hr2).
  rewrite filtered_members_idem in Hr2 by by eapply repr_obj_NoDup.
  by exists h1, v1, h2, v2, (JObj (filtered_members kds)).
Qed.

Lemma filter_idempotent_witness :
  repr scenario_store scenario_root scenario_doc ∧
  schema_document scenario_doc ∧
  ints_fit scenario_doc = true ∧
  ∃ h1 v1 h2 v2 d1,
    filter_schema_for_id_workflows scenario_root scenario_store = (h1, Ok v1) ∧
    filter_schema_for_id_workflows v1 h1 = (h2, Ok v2) ∧
    repr h1 v1 d1 ∧ repr h2 v2 d1.
Proof.
  split; [exact scenario_store_repr |]. split; [exact scenario_doc_schema |].
  split; [reflexivity |].
  exact (filter_idempotent scenario_store scenario_root scenario_doc
           scenario_store_repr scenario_doc_schema eq_refl).
Defined.

(** C3. The scenario of the spec: whatever objects spell the scenario
    input, the filter returns the scenario output. *)
Theorem scenario_filtered (h : heap) v :
  repr h v scenario_doc →
  ∃ h' v',
    filter_schema_for_id_workflows v h = (h', Ok v') ∧
    repr h' v' scenario_result.
Proof.
  intros Hr.
  destruct (filter_schema_run h v _ Hr scenario_doc_schema eq_refl)
    as (h' & v' & Hrun & _ & Hr').
  by exists h', v'.
Qed.

Lemma scenario_filtered_witness :
  repr scenario_store scenario_root scenario_doc ∧
  ∃ h' v',
    filter_schema_for_id_workflows scenario_root scenario_store = (h', Ok v') ∧
    repr h' v' scenario_result.
Proof.
  split; [exact scenario_store_repr |].
  exact (scenario_filtered scenario_store scenario_root scenario_store_repr).
Defined.

(** C4. When [properties] holds ["key"], the result's [properties] does
    not; when it holds no ["key"] it is unchanged, and when there is no
    [properties] there is none in the result.  No case raises.  (The
    document is one [json.dumps] can write: no integer of more than 4300
    digits.) *)
Theorem key_removal (h : heap) v kds :
  repr h v (JObj kds) → schema_document (JObj kds) →
  ints_fit (JObj kds) = true →
  ∃ h' v' kds',
    filter_schema_for_id_workflows v h = (h', Ok v') ∧
    repr h' v' (JObj kds') ∧
    match dict_get "properties" kds with
    | Some (JObj ps) =>
        ∃ ps', dict_get "properties" kds' = Some (JObj ps') ∧
               dict_has "key" ps' = false ∧
               (dict_has "key" ps = false → ps' = ps)
    | _ => dict_get "properties" kds' = None
    end.
Proof.
  intros Hr Hs Hf.
  destruct (filter_schema_run h v kds Hr Hs Hf) as (h' & v' & Hrun & _ & Hr').
  exists h', v', (filtered_members kds). split_and!; [done.. |].
  rewrite filtered_members_properties. simpl in Hs.
  destruct (dict_get "properties" kds) as [[| | | | | | ps] |]; try done.
  exists (dict_del "key" ps). split_and!; [done | apply dict_has_del |].
  apply dict_del_absent.
Qed.

Lemma key_removal_witness :
  repr scenario_store scenario_root scenario_doc ∧
  schema_document scenario_doc ∧
  ints_fit scenario_doc = true ∧
  ∃ h' v' kds',
    filter_schema_for_id_workflows scenario_root scenario_store = (h', Ok v') ∧
    repr h' v' (JObj kds') ∧
    ∃ ps', dict_get "properties" kds' = Some (JObj ps') ∧
           dict_has "key" ps' = false ∧
           (dict_has "key"
              [("key", JObj [("type", JStr "string")]);
               ("id", JObj [("type", JStr "string")])] = false →
            ps' = [("key", JObj [("type", JStr "string")]);
                   ("id", JObj [("type", JStr "string")])]).
Proof.
  split; [exact scenario_store_repr |]. split; [exact scenario_doc_schema |].
  split; [reflexivity |].
  exact (key_removal scenario_store scenario_root _
           scenario_store_repr scenario_doc_schema eq_refl).
Defined.

(** C5. The call leaves the caller's store as it was, whether it returns
    or raises: the new store is the old one followed by new objects, and
    the argument still spells the same document. *)
Theorem filter_leaves_argument (h : heap) v d :
  repr h v d →
  ∃ h' r,
    filter_schema_for_id_workflows v h = (h', r) ∧
    (∃ t, h' = h ++ t) ∧
    repr h' v d.
Proof.
  intros Hr. destruct (ints_fit d) eqn:Hf.
  - destruct (filter_denotes h v d Hr Hf) as (h' & r & Hrun & [t ->] & _).
    exists (h ++ t), r. split_and!; [done | by exists t | by apply repr_app].
  - exists h, (Raise ValueError).
    split_and!; [by apply filter_long_int with d | | done].
    exists []. by rewrite app_nil_r.
Qed.

Lemma filter_leaves_argument_witness :
  repr scenario_store scenario_root scenario_doc ∧
  ∃ h' r,
    filter_schema_for_id_workflows scenario_root scenario_store = (h', r) ∧
    (∃ t, h' = scenario_store ++ t) ∧
    repr h' scenario_root scenario_doc.
Proof.
  split; [exact scenario_store_repr |].
  exact (filter_leaves_argument scenario_store scenario_root scenario_doc
           scenario_store_repr).
Defined.

(** C6. The result has the root keys of the input in the same order; a
    root entry other than [properties], [oneOf] and [description] is
    unchanged; under [properties] every entry other than ["key"] is
    unchanged; and a document with no [properties.key], no [oneOf] and no
    [description] comes back identical.  (The document is one
    [json.dumps] can write: no integer of more than 4300 digits.) *)
Theorem filter_frame (h : heap) v kds :
  repr h v (JObj kds) → schema_document (JObj kds) →
  ints_fit (JObj kds) = true →
  ∃ h' v' kds',
    filter_schema_for_id_workflows v h = (h', Ok v') ∧
    repr h' v' (JObj kds') ∧
    kds'.*1 = kds.*1 ∧
    (∀ k, k ≠ "properties" → k ≠ "oneOf" → k ≠ "description" →
          dict_get k kds' = dict_get k kds) ∧
    match dict_get "properties" kds with
    | Some (JObj ps) =>
        ∃ ps', dict_get "properties" kds' = Some (JObj ps') ∧
               ∀ k, k ≠ "key" → dict_get k ps' = dict_get k ps
    | _ => dict_get "properties" kds' = None
    end ∧
    (match dict_get "properties" kds with
     | Some (JObj ps) => dict_has "key" ps = false
     | _ => True
     end →
     dict_has "oneOf" kds = false → dict_has "description" kds = false →
     kds' = kds).
Proof.
  intros Hr Hs Hf.
  destruct (filter_schema_run h v kds Hr Hs Hf) as (h' & v' & Hrun & _ & Hr').
  exists h', v', (filtered_members kds). split_and!; [done.. | | | |].
  - apply filtered_members_keys.
  - intros k. apply filtered_members_other.
  - rewrite filtered_members_properties. simpl in Hs.
    destruct (dict_get "properties" kds) as [[| | | | | | ps] |]; try done.
    exists (dict_del "key" ps). split; [done |].
    intros k Hk. by apply dict_get_del_ne.
  - apply filtered_members_untouched.
Qed.

Lemma filter_frame_witness :
  repr scenario_store scenario_root scenario_doc ∧
  schema_document scenario_doc ∧
  ints_fit scenario_doc = true ∧
  ∃ h' v' kds',
    filter_schema_for_id_workflows scenario_root scenario_store = (h', Ok v') ∧
    repr h' v' (JObj kds') ∧
    kds'.*1 = ["properties"; "oneOf"; "description"].
Proof.
  split; [exact scenario_store_repr |]. split; [exact scenario_doc_schema |].
  split; [reflexivity |].
  destruct (filter_frame scenario_store scenario_root _
              scenario_store_repr scenario_doc_schema eq_refl)
    as (h' & v' & kds' & Hrun & Hr & Hk & _).
  by exists h', v', kds'.
Defined.

(** C9, as the code has it.  On a schema document (an object at the root
    whose [properties], when present, is an object) none of whose integers
    has more than 4300 digits, the filter returns, whichever of
    [properties], [key], [oneOf] and [description] are missing. *)
Theorem filter_total (h : heap) v d :
  repr h v d → schema_document d → ints_fit d = true →
  ∃ h' v', filter_schema_for_id_workflows v h = (h', Ok v').
Proof.
  intros Hr Hs Hf. destruct d as [| | | | | | kds]; try done.
  destruct (filter_schema_run h v kds Hr Hs Hf) as (h' & v' & Hrun & _).
  by exists h', v'.
Qed.

Lemma filter_total_witness :
  repr [ODict [("version", VInt 3)]] (VRef 0) (JObj [("version", JInt 3)]) ∧
  schema_document (JObj [("version", JInt 3)]) ∧
  ints_fit (JObj [("version", JInt 3)]) = true ∧
  ∃ h' v',
    filter_schema_for_id_workflows (VRef 0) [ODict [("version", VInt 3)]]
      = (h', Ok v').
Proof.
  assert (Hr : repr [ODict [("version", VInt 3)]] (VRef 0)
                 (JObj [("version", JInt 3)])) by solve_repr.
  assert (Hf : ints_fit (JObj [("version", JInt 3)]) = true)
    by (vm_compute; reflexivity).
  split; [exact Hr |]. split; [exact I |]. split; [exact Hf |].
  exact (filter_total _ (VRef 0) (JObj [("version", JInt 3)]) Hr I Hf).
Defined.

(** C9 as stated fails on [{"properties": null}], a well-formed JSON
    document: [in] on [None] raises [TypeError]. *)
Lemma filter_raises_on_null_properties :
  repr [ODict [("properties", VNone)]] (VRef 0) (JObj [("properties", JNull)]) ∧
  filter_schema_for_id_workflows (VRef 0) [ODict [("properties", VNone)]]
    = ([ODict [("properties", VNone)]; ODict [("properties", VNone)]],
       Raise TypeError).
Proof. split; [solve_repr | reflexivity]. Qed.


(** ** Statistics *)

(** An integer of 5001 digits under any key: [json.dumps] refuses it on
    line 21, before any edit. *)
Lemma filter_raises_on_long_int :
  repr [ODict [("a", VInt (10 ^ 5000))]] (VRef 0) (JObj [("a", JInt (10 ^ 5000))]) ∧
  schema_document (JObj [("a", JInt (10 ^ 5000))]) ∧
  filter_schema_for_id_workflows (VRef 0) [ODict [("a", VInt (10 ^ 5000))]]
    = ([ODict [("a", VInt (10 ^ 5000))]], Raise ValueError).
Proof.
  assert (Hr : repr [ODict [("a", VInt (10 ^ 5000))]] (VRef 0)
                 (JObj [("a", JInt (10 ^ 5000))])) by solve_repr.
  split; [exact Hr |]. split; [exact I |].
  apply (filter_long_int _ _ _ Hr). vm_compute. reflexivity.
Qed.

(** C7. The token estimate of a text is the floor of a quarter of its
    length: the integer [n] with [4 n <= len < 4 n + 4]; the empty text
    has estimate 0. *)
Theorem count_tokens_estimate_floor :
  (∀ s : string,
     (4 * count_tokens_estimate s ≤ Z.of_nat (String.length s)
      < 4 * count_tokens_estimate s + 4)%Z) ∧
  count_tokens_estimate "" = 0%Z.
Proof.
  split; [| reflexivity]. intros s. unfold count_tokens_estimate.
  pose proof (Z.div_mod (Z.of_nat (String.length s)) 4 ltac:(lia)).
  pose proof (Z.mod_pos_bound (Z.of_nat (String.length s)) 4 ltac:(lia)).
  lia.
Qed.

Lemma count_tokens_estimate_nonneg s : (0 ≤ count_tokens_estimate s)%Z.
Proof. unfold count_tokens_estimate. apply Z.div_pos; lia. Qed.

Lemma percent_guarded (a b : Z) :
  (0 ≤ b)%Z →
  (if (0 <? b)%Z then res_map (λ q, q * inject_Z 100)%Q (py_truediv a b)
   else Ok (inject_Z 0)) =
  Ok (if (b =? 0)%Z then 0%Q else (inject_Z a / inject_Z b * inject_Z 100)%Q).
Proof.
  intros Hb. unfold py_truediv.
  destruct (Z.ltb_spec 0 b), (Z.eqb_spec b 0); try lia; reflexivity.
Qed.

Lemma reduction_statistics_run (original_json filtered_json : string) :
  reduction_statistics original_json filtered_json =
    Ok {| original_tokens := count_tokens_estimate original_json;
          filtered_tokens := count_tokens_estimate filtered_json;
          reduction := count_tokens_estimate original_json
                       - count_tokens_estimate filtered_json;
          reduction_percent :=
            if (count_tokens_estimate original_json =? 0)%Z then 0%Q
            else (inject_Z (count_tokens_estimate original_json
                            - count_tokens_estimate filtered_json)
                  / inject_Z (count_tokens_estimate original_json)
                  * inject_Z 100)%Q;
          original_size := Z.of_nat (String.length original_json);
          filtered_size := Z.of_nat (String.length filtered_json);
          size_reduction := Z.of_nat (String.length original_json)
                            - Z.of_nat (String.length filtered_json);
          size_reduction_percent :=
            if (Z.of_nat (String.length original_json) =? 0)%Z then 0%Q
            else (inject_Z (Z.of_nat (String.length original_json)
                            - Z.of_nat (String.length filtered_json))
                  / inject_Z (Z.of_nat (String.length original_json))
                  * inject_Z 100)%Q |}.
Proof.
  unfold reduction_statistics.
  rewrite percent_guarded by apply count_tokens_estimate_nonneg.
  rewrite percent_guarded by lia. reflexivity.
Qed.

(** C8. The statistics never raise: each percentage is
    [(reduction / original) * 100] when its original measure is positive
    and 0 when that measure is 0; for an empty original both percentages
    are 0, whatever the filtered text. *)
Theorem percentage_guard :
  (∀ original_json filtered_json : string,
     ∃ r, reduction_statistics original_json filtered_json = Ok r ∧
       original_tokens r = count_tokens_estimate original_json ∧
       filtered_tokens r = count_tokens_estimate filtered_json ∧
       original_size r = Z.of_nat (String.length original_json) ∧
       filtered_size r = Z.of_nat (String.length filtered_json) ∧
       reduction r = (original_tokens r - filtered_tokens r)%Z ∧
       size_reduction r = (original_size r - filtered_size r)%Z ∧
       reduction_percent r =
         (if (original_tokens r =? 0)%Z then 0%Q
          else (inject_Z (reduction r) / inject_Z (original_tokens r)
                * inject_Z 100)%Q) ∧
       size_reduction_percent r =
         (if (original_size r =? 0)%Z then 0%Q
          else (inject_Z (size_reduction r) / inject_Z (original_size r)
                * inject_Z 100)%Q)) ∧
  (∀ filtered_json : string,
     ∃ r, reduction_statistics "" filtered_json = Ok r ∧
       reduction_percent r = 0%Q ∧ size_reduction_percent r = 0%Q).
Proof.
  split.
  - intros o f. eexists. split; [apply reduction_statistics_run |].
    simpl. by repeat split.
  - intros f. eexists. split; [apply reduction_statistics_run |]. by split.
Qed.

(** C10. The token guard looks at the token estimate, not at the text: an
    original of one to three characters has estimate 0, so its token
    percentage is 0, while its size percentage is computed from its
    length. *)
Theorem short_original_percentages (original_json filtered_json : string) :
  1 ≤ String.length original_json ≤ 3 →
  ∃ r, reduction_statistics original_json filtered_json = Ok r ∧
    original_tokens r = 0%Z ∧
    reduction_percent r = 0%Q ∧
    (0 < original_size r)%Z ∧
    size_reduction_percent r =
      (inject_Z (Z.of_nat (String.length original_json)
                 - Z.of_nat (String.length filtered_json))
       / inject_Z (Z.of_nat (String.length original_json))
       * inject_Z 100)%Q.
Proof.
  intros Hlen. eexists. split; [apply reduction_statistics_run |]. simpl.
  assert (Ht : count_tokens_estimate original_json = 0%Z).
  { unfold count_tokens_estimate. apply Z.div_small. lia. }
  rewrite Ht. simpl.
  destruct (Z.eqb_spec (Z.of_nat (String.length original_json)) 0); [lia |].
  repeat split. lia.
Qed.

Lemma short_original_percentages_witness :
  ∃ r, reduction_statistics "abc" "a" = Ok r ∧
    original_tokens r = 0%Z ∧
    reduction_percent r = 0%Q ∧
    (0 < original_size r)%Z ∧
    size_reduction_percent r =
      (inject_Z (Z.of_nat (String.length "abc") - Z.of_nat (String.length "a"))
       / inject_Z (Z.of_nat (String.length "abc")) * inject_Z 100)%Q.
Proof. apply (short_original_percentages "abc" "a"). simpl. lia. Defined.

(** * Further properties of the filter *)

(** X1. A root [description] is replaced by the fixed text, whatever it
    was (a string or not); a document without one gets none.  (The
    document is one [json.dumps] can write: no integer of more than 4300
    digits.) *)
Theorem description_rewritten (h : heap) v kds :
  repr h v (JObj kds) → schema_document (JObj kds) →
  ints_fit (JObj kds) = true →
  ∃ h' v' kds',
    filter_schema_for_id_workflows v h = (h', Ok v') ∧
    repr h' v' (JObj kds') ∧
    dict_get "description" kds' =
      if dict_has "description" kds
      then Some (JStr id_only_description) else None.
Proof.
  intros Hr Hs Hf.
  destruct (filter_schema_run h v kds Hr Hs Hf) as (h' & v' & Hrun & _ & Hr').
  exists h', v', (filtered_members kds). split_and!; [done.. |].
  apply filtered_members_description.
Qed.

Lemma description_rewritten_witness :
  repr [ODict [("description", VInt 7)]] (VRef 0)
    (JObj [("description", JInt 7)]) ∧
  schema_document (JObj [("description", JInt 7)]) ∧
  ints_fit (JObj [("description", JInt 7)]) = true ∧
  ∃ h' v' kds',
    filter_schema_for_id_workflows (VRef 0) [ODict [("description", VInt 7)]]
      = (h', Ok v') ∧
    repr h' v' (JObj kds') ∧
    dict_get "description" kds' = Some (JStr id_only_description).
Proof.
  assert (Hr : repr [ODict [("description", VInt 7)]] (VRef 0)
                 (JObj [("description", JInt 7)])) by solve_repr.
  assert (Hf : ints_fit (JObj [("description", JInt 7)]) = true)
    by (vm_compute; reflexivity).
  split; [exact Hr |]. split; [exact I |]. split; [exact Hf |].
  exact (description_rewritten _ _ _ Hr I Hf).
Defined.

Lemma repr_in_bounds (P : nat → Prop) (h : heap) d :
  ∀ v, repr_in P h v d → repr_in (λ l, l < length h) h v d.
Proof.
  induction d as [| | | | | ds IH | kds IH] using json_ind';
    intros v Hr; inversion Hr; subst; try constructor.
  - eapply repr_arr; [by eapply lookup_lt_Some | done |].
    eapply Forall2_Forall_impl; eauto.
  - eapply repr_obj; [by eapply lookup_lt_Some | done.. |].
    eapply Forall2_Forall_impl; eauto.
Qed.

(** X2. The result shares no object with the argument: after a call that
    returns, the result is spelled through objects made by the call only,
    and the argument through objects of the caller's store only. *)
Theorem filter_result_fresh (h : heap) v d h' v' :
  repr h v d →
  filter_schema_for_id_workflows v h = (h', Ok v') →
  (∃ d', repr_in (λ l, length h ≤ l) h' v' d') ∧
  repr_in (λ l, l < length h) h' v d.
Proof.
  intros Hr Hrun.
  destruct (ints_fit d) eqn:Hf;
    [| by rewrite (filter_long_int h v d Hr Hf) in Hrun].
  destruct (filter_denotes_fresh h v d Hr Hf) as (h1 & r & Hrun' & [t ->] & Hres).
  rewrite Hrun in Hrun'. injection Hrun' as -> <-. split.
  - destruct (filter_doc d) as [d' |]; [| done].
    destruct Hres as (v1 & [= <-] & Hr'). by exists d'.
  - apply (repr_in_bounds _ h) in Hr. revert Hr.
    apply repr_in_mono; [done |]. intros l o _ Ho. by apply lookup_app_l_Some.
Qed.

Lemma filter_result_fresh_witness :
  repr [ODict []] (VRef 0) (JObj []) ∧
  filter_schema_for_id_workflows (VRef 0) [ODict []]
    = ([ODict []; ODict []], Ok (VRef 1)) ∧
  (∃ d', repr_in (λ l, length [ODict []] ≤ l) [ODict []; ODict []] (VRef 1) d') ∧
  repr_in (λ l, l < length [ODict []]) [ODict []; ODict []] (VRef 0) (JObj []).
Proof.
  assert (Hr : repr [ODict []] (VRef 0) (JObj [])) by solve_repr.
  split; [exact Hr |]. split; [reflexivity |].
  exact (filter_result_fresh [ODict []] (VRef 0) (JObj [])
           [ODict []; ODict []] (VRef 1) Hr eq_refl).
Defined.

Lemma filter_doc_raises d e : filter_doc d = Raise e → e = TypeError.
Proof.
  destruct d as [| | | | s | ds | kds]; simpl; try congruence.
  - destruct (is_substring "properties" s), (is_substring "oneOf" s),
      (is_substring "description" s); congruence.
  - destruct (existsb (doc_is_str "properties") ds),
      (existsb (doc_is_str "oneOf") ds),
      (existsb (doc_is_str "description") ds); congruence.
  - destruct (dict_get "properties" kds) as [[| | | | s | ds | ps] |]; simpl;
      try congruence.
    + destruct (is_substring "key" s); simpl; congruence.
    + destruct (existsb (doc_is_str "key") ds); simpl; congruence.
Qed.

(** X3. The exceptions of the filter, on an argument that spells a
    document: [ValueError] from [json.dumps] when an integer has more than
    4300 digits, and [TypeError] otherwise.  The [in] tests guard every
    lookup and deletion, so no [KeyError] comes out. *)
Theorem filter_exceptions (h : heap) v d h' e :
  repr h v d →
  filter_schema_for_id_workflows v h = (h', Raise e) →
  e = if ints_fit d then TypeError else ValueError.
Proof.
  intros Hr Hrun. destruct (ints_fit d) eqn:Hf.
  - destruct (filter_denotes h v d Hr Hf) as (h1 & r & Hrun' & _ & Hres).
    rewrite Hrun in Hrun'. injection Hrun' as _ <-.
    destruct (filter_doc d) as [d' | e'] eqn:E.
    + by destruct Hres as (? & ? & _).
    + injection Hres as ->. by eapply filter_doc_raises.
  - rewrite (filter_long_int h v d Hr Hf) in Hrun. by injection Hrun as _ <-.
Qed.

Lemma filter_exceptions_witness :
  repr [ODict [("properties", VBool true)]] (VRef 0)
    (JObj [("properties", JBool true)]) ∧
  filter_schema_for_id_workflows (VRef 0) [ODict [("properties", VBool true)]]
    = ([ODict [("properties", VBool true)]; ODict [("properties", VBool true)]],
       Raise TypeError) ∧
  TypeError = TypeError.
Proof.
  assert (Hr : repr [ODict [("properties", VBool true)]] (VRef 0)
                 (JObj [("properties", JBool true)])) by solve_repr.
  split; [exact Hr |]. split; [reflexivity |].
  exact (filter_exceptions _ _ _ _ _ Hr eq_refl).
Defined.

(** X4. What the filter does with a root object, by its [properties]:
    absent or an object, it returns; a string or a list is searched for
    ["key"] (as a substring, as an element) and the filter returns with
    [properties] untouched when there is none, and raises [TypeError] on
    the deletion when there is one; on [null], a boolean or a number the
    test itself raises [TypeError].  This is for a document [json.dumps]
    can write, one with no integer of more than 4300 digits. *)
Theorem filter_object_outcome (h : heap) v kds :
  repr h v (JObj kds) → ints_fit (JObj kds) = true →
  ∃ h' r,
    filter_schema_for_id_workflows v h = (h', r) ∧
    match dict_get "properties" kds with
    | None | Some (JObj _) => ∃ v', r = Ok v'
    | Some (JStr s) =>
        if is_substring "key" s then r = Raise TypeError
        else ∃ v' kds', r = Ok v' ∧ repr h' v' (JObj kds') ∧
                        dict_get "properties" kds' = Some (JStr s)
    | Some (JArr ds) =>
        if existsb (doc_is_str "key") ds then r = Raise TypeError
        else ∃ v' kds', r = Ok v' ∧ repr h' v' (JObj kds') ∧
                        dict_get "properties" kds' = Some (JArr ds)
    | Some _ => r = Raise TypeError
    end.
Proof.
  intros Hr Hf.
  destruct (filter_denotes h v _ Hr Hf) as (h' & r & Hrun & _ & Hres).
  exists h', r. split; [done |].
  assert (Hkeep : ∀ kds0 p,
            dict_get "properties" kds0 = Some p →
            dict_get "properties"
              (let kds2 := if dict_has "oneOf" kds0
                           then dict_set "oneOf" id_only_oneOf kds0 else kds0 in
               if dict_has "description" kds2
               then dict_set "description" (JStr id_only_description) kds2
               else kds2) = Some p).
  { intros kds0 p Hp. simpl.
    destruct (dict_has "description" _), (dict_has "oneOf" kds0);
      by rewrite ?dict_get_set_ne by done. }
  unfold filter_doc in Hres.
  destruct (dict_get "properties" kds) as [[| | | | s | ds | ps] |] eqn:E;
    simpl in Hres; try done.
  - destruct (is_substring "key" s); simpl in Hres; [done |].
    destruct Hres as (v' & -> & Hr'). eexists _, _. split_and!; [done.. |].
    by apply Hkeep.
  - destruct (existsb (doc_is_str "key") ds); simpl in Hres; [done |].
    destruct Hres as (v' & -> & Hr'). eexists _, _. split_and!; [done.. |].
    by apply Hkeep.
  - destruct Hres as (v' & -> & _). by exists v'.
  - destruct Hres as (v' & -> & _). by exists v'.
Qed.

Lemma filter_object_outcome_witness :
  repr [ODict [("properties", VStr "monkey")]] (VRef 0)
    (JObj [("properties", JStr "monkey")]) ∧
  ints_fit (JObj [("properties", JStr "monkey")]) = true ∧
  ∃ h' r,
    filter_schema_for_id_workflows (VRef 0) [ODict [("properties", VStr "monkey")]]
      = (h', r) ∧
    r = Raise TypeError.
Proof.
  assert (Hr : repr [ODict [("properties", VStr "monkey")]] (VRef 0)
                 (JObj [("properties", JStr "monkey")])) by solve_repr.
  split; [exact Hr |]. split; [reflexivity |].
  exact (filter_object_outcome _ _ _ Hr eq_refl).
Defined.

(** X5. A list at the root is searched for the three names as elements:
    with none of them the filter returns a copy of the list, with one it
    raises [TypeError] (a list is not indexed by a string).  This is for
    a list [json.dumps] can write, one with no integer of more than 4300
    digits. *)
Theorem filter_list_root (h : heap) v ds :
  repr h v (JArr ds) → ints_fit (JArr ds) = true →
  ∃ h' r,
    filter_schema_for_id_workflows v h = (h', r) ∧
    if (existsb (doc_is_str "properties") ds
        || existsb (doc_is_str "oneOf") ds
        || existsb (doc_is_str "description") ds)%bool
    then r = Raise TypeError
    else ∃ v', r = Ok v' ∧ repr h' v' (JArr ds).
Proof.
  intros Hr Hf.
  destruct (filter_denotes h v _ Hr Hf) as (h' & r & Hrun & _ & Hres).
  exists h', r. split; [done |]. simpl in Hres.
  by destruct (existsb (doc_is_str "properties") ds),
    (existsb (doc_is_str "oneOf") ds),
    (existsb (doc_is_str "description") ds).
Qed.

Lemma filter_list_root_witness :
  repr [OList [VStr "oneOf"]] (VRef 0) (JArr [JStr "oneOf"]) ∧
  ints_fit (JArr [JStr "oneOf"]) = true ∧
  ∃ h' r,
    filter_schema_for_id_workflows (VRef 0) [OList [VStr "oneOf"]] = (h', r) ∧
    r = Raise TypeError.
Proof.
  assert (Hr : repr [OList [VStr "oneOf"]] (VRef 0) (JArr [JStr "oneOf"]))
    by solve_repr.
  split; [exact Hr |]. split; [reflexivity |].
  exact (filter_list_root _ _ _ Hr eq_refl).
Defined.

(** X6. On [None], a boolean or a number (an integer of at most 4300
    digits, so that [json.dumps] can write it) the first [in] test raises
    [TypeError], and the store is left exactly as it was. *)
Theorem filter_scalar_root (h : heap) v d :
  repr h v d → ints_fit d = true →
  match d with
  | JNull | JBool _ | JInt _ | JFloat _ => True
  | _ => False
  end →
  filter_schema_for_id_workflows v h = (h, Raise TypeError).
Proof.
  intros Hr Hf Hd. rewrite filter_unfold.
  rewrite (bind_ok _ _ _ _ _ (json_dumps_repr _ _ _ Hr Hf)).
  destruct d as [| b | z | lit | s | ds | kds]; try done.
  simpl in *. by rewrite Hf.
Qed.

Lemma filter_scalar_root_witness :
  repr [] (VInt 42) (JInt 42) ∧ ints_fit (JInt 42) = true ∧ True ∧
  filter_schema_for_id_workflows (VInt 42) [] = ([], Raise TypeError).
Proof.
  assert (Hr : repr [] (VInt 42) (JInt 42)) by constructor.
  assert (Hf : ints_fit (JInt 42) = true) by (vm_compute; reflexivity).
  split; [exact Hr |]. split; [exact Hf |]. split; [exact I |].
  exact (filter_scalar_root [] (VInt 42) (JInt 42) Hr Hf I).
Defined.

(** X7. The copy of line 21, [json.loads(json.dumps(schema_dict))], is
    deep: it leaves the store in place, spells the argument's document
    through new objects only, and serialises to the same text as the
    argument.  (The document is one [json.dumps] can write: no integer of
    more than 4300 digits.) *)
Theorem deep_copy (h : heap) v d :
  repr h v d → ints_fit d = true →
  ∃ t v',
    (let! text := json_dumps v in json_loads text) h = (h ++ t, Ok v') ∧
    repr_in (λ l, length h ≤ l) (h ++ t) v' d ∧
    json_dumps v' (h ++ t) = (h ++ t, Ok d) ∧
    json_dumps v (h ++ t) = (h ++ t, Ok d).
Proof.
  intros Hr Hf.
  destruct (json_loads_tree _ _ _ _ Hr Hf h) as (v' & t & Hload & Htree).
  exists t, v'.
  assert (Hr' : repr_in (λ l, length h ≤ l) (h ++ t) v' d).
  { apply (proj1 (tree_in_repr _)) in Htree. revert Htree.
    apply repr_in_weaken. intros; lia. }
  split_and!; [| done | |].
  - by rewrite (bind_ok _ _ _ _ _ (json_dumps_repr _ _ _ Hr Hf)).
  - apply json_dumps_repr; [| done]. revert Hr'. by apply repr_in_weaken.
  - apply json_dumps_repr; [| done]. by apply repr_app.
Qed.

Lemma deep_copy_witness :
  repr scenario_store scenario_root scenario_doc ∧
  ints_fit scenario_doc = true ∧
  ∃ t v',
    (let! text := json_dumps scenario_root in json_loads text) scenario_store
      = (scenario_store ++ t, Ok v') ∧
    repr_in (λ l, length scenario_store ≤ l) (scenario_store ++ t) v' scenario_doc ∧
    json_dumps v' (scenario_store ++ t) = (scenario_store ++ t, Ok scenario_doc) ∧
    json_dumps scenario_root (scenario_store ++ t)
      = (scenario_store ++ t, Ok scenario_doc).
Proof.
  split; [exact scenario_store_repr |]. split; [reflexivity |].
  exact (deep_copy scenario_store scenario_root scenario_doc
           scenario_store_repr eq_refl).
Defined.

(** ** Circular arguments *)

Lemma res_mapM_Ok {A B} (f : A → res B) xs ys :
  res_mapM f xs = Ok ys → Forall2 (λ x y, f x = Ok y) xs ys.
Proof.
  revert ys. induction xs as [| x xs IH]; intros ys; simpl.
  - intros [= <-]. constructor.
  - destruct (f x) as [y |] eqn:E; [| done].
    destruct (res_mapM f xs) as [ys' |]; [| done].
    intros [= <-]. constructor; [done | by apply IH].
Qed.

Lemma res_mapM_Raise {A B} (f : A → res B) xs e :
  res_mapM f xs = Raise e → ∃ x, x ∈ xs ∧ f x = Raise e.
Proof.
  induction xs as [| x xs IH]; simpl; [done |].
  destruct (f x) as [y |] eqn:E.
  - destruct (res_mapM f xs) as [ys' |]; [done |].
    intros [= <-]. destruct IH as (x' & Hx' & Hf); [done |].
    exists x'. split; [by right | done].
  - intros [= <-]. exists x. split; [by left | done].
Qed.

(** What the encoder returns is spelled by the store. *)
Lemma dumps_val_sound (h : heap) :
  heap_closed h →
  ∀ n v d, dumps_val n h v = Ok d → repr h v d.
Proof.
  intros Hc. induction n as [| n IH]; intros v d;
    destruct v as [| b | z | lit | s | l]; simpl;
    try (intros [= <-]; constructor);
    try (destruct (int_fits z); [intros [= <-]; constructor | done]);
    try done.
  destruct (h !! l) as [[kvs | vs] |] eqn:Hl; [| | done].
  - destruct (res_mapM _ kvs) as [kds |] eqn:E; [| done]. simpl. intros [= <-].
    apply res_mapM_Ok in E.
    assert (Hk : kvs.*1 = kds.*1 ∧ Forall2 (repr h) kvs.*2 kds.*2).
    { clear Hl. induction E as [| [k v] [k' d] kvs kds Hxy _ IHE]; [done |].
      simpl in Hxy. destruct (dumps_val n h v) as [d' |] eqn:Ev; [| done].
      injection Hxy as <- <-. destruct IHE as [IH1 IH2]. csimpl. split.
      - by rewrite IH1.
      - constructor; [by apply IH | done]. }
    destruct Hk as [Hk Hv]. eapply repr_obj; [done | exact Hl | | done..].
    by destruct (Hc _ _ Hl) as [_ Hnd].
  - destruct (res_mapM _ vs) as [ds |] eqn:E; [| done]. simpl. intros [= <-].
    apply res_mapM_Ok in E. eapply repr_arr; [done | exact Hl |].
    eapply Forall2_impl; [exact E |]. intros v d. apply IH.
Qed.

(** In a closed store the encoder fails for one reason only. *)
Lemma dumps_val_raises (h : heap) :
  heap_closed h →
  ∀ n v e,
    (∀ l, v = VRef l → l < length h) →
    dumps_val n h v = Raise e → e = ValueError.
Proof.
  intros Hc. induction n as [| n IH]; intros v e Hv;
    destruct v as [| b | z | lit | s | l]; simpl; try done;
    try (destruct (int_fits z); [done | congruence]); [congruence |].
  destruct (lookup_lt_is_Some_2 h l (Hv l eq_refl)) as [o Hl]. rewrite Hl.
  destruct (Hc _ _ Hl) as [Hin _].
  destruct o as [kvs | vs]; simpl in Hin.
  - destruct (res_mapM _ kvs) as [kds | e'] eqn:E; [done |]. simpl. intros [= <-].
    apply res_mapM_Raise in E as ([k v] & Hkv & Hf). simpl in Hf.
    destruct (dumps_val n h v) as [d' | e''] eqn:Ev; [done |].
    injection Hf as <-. apply (IH v); [| done].
    intros l' ->. apply Hin. apply list_elem_of_fmap. by exists (k, VRef l').
  - destruct (res_mapM _ vs) as [ds | e'] eqn:E; [done |]. simpl. intros [= <-].
    apply res_mapM_Raise in E as (v & Hv' & Hf).
    apply (IH v); [| done]. intros l' ->. by apply Hin.
Qed.

Lemma repr_points_to (h : heap) l l' d :
  repr h (VRef l) d → points_to h l l' →
  ∃ d', repr h (VRef l') d' ∧ size d' < size d.
Proof.
  intros Hr [o Hl Hin]. inversion Hr; subst; simplify_eq; simpl in Hin.
  - destruct (list_elem_of_lookup_1 _ _ Hin) as [i Hi].
    match goal with H : Forall2 _ _ _ |- _ =>
      destruct (Forall2_lookup_l _ _ _ _ _ H Hi) as (d' & Hd' & Hrd') end.
    exists d'. split; [done |].
    pose proof (size_elem d' ds (list_elem_of_lookup_2 _ _ _ Hd')). simpl. lia.
  - destruct (list_elem_of_lookup_1 _ _ Hin) as [i Hi].
    match goal with H : Forall2 _ _ _ |- _ =>
      destruct (Forall2_lookup_l _ _ _ _ _ H Hi) as (d' & Hd' & Hrd') end.
    exists d'. split; [done |].
    pose proof (size_elem d' _ (list_elem_of_lookup_2 _ _ _ Hd')). simpl.
    rewrite (foldr_snd (λ d n, size d + n)). lia.
Qed.

Lemma repr_reaches (h : heap) l l' :
  rtc (points_to h) l l' →
  ∀ d, repr h (VRef l) d → ∃ d', repr h (VRef l') d' ∧ size d' ≤ size d.
Proof.
  induction 1 as [l | l l1 l' Hstep _ IH]; intros d Hr.
  - by exists d.
  - destruct (repr_points_to _ _ _ _ Hr Hstep) as (d1 & Hr1 & Hlt).
    destruct (IH d1 Hr1) as (d' & Hr' & Hle). exists d'. split; [done | lia].
Qed.

Lemma repr_no_cycle (h : heap) l l' d :
  repr h (VRef l) d → rtc (points_to h) l l' → tc (points_to h) l' l' → False.
Proof.
  intros Hr Hreach Hcyc.
  destruct (repr_reaches _ _ _ Hreach d Hr) as (d' & Hr' & _).
  assert (Hlt : ∀ a b, tc (points_to h) a b →
            ∀ da, repr h (VRef a) da → ∃ db, repr h (VRef b) db ∧ size db < size da).
  { induction 1 as [a b Hab | a b c Hab _ IH]; intros da Hda.
    - by eapply repr_points_to.
    - destruct (repr_points_to _ _ _ _ Hda Hab) as (db & Hdb & Hlt).
      destruct (IH db Hdb) as (dc & Hdc & Hlt'). exists dc. split; [done | lia]. }
  destruct (Hlt _ _ Hcyc d' Hr') as (d'' & Hr'' & Hsz).
  rewrite (repr_in_functional _ _ _ _ _ _ Hr' Hr'') in Hsz. lia.
Qed.

(** X8. A circular argument: when some object reached from the argument
    reaches itself, [json.dumps] raises [ValueError], and the filter
    passes it on with the store as it was. *)
Theorem filter_circular (h : heap) l l' :
  heap_closed h → l < length h →
  rtc (points_to h) l l' → tc (points_to h) l' l' →
  filter_schema_for_id_workflows (VRef l) h = (h, Raise ValueError).
Proof.
  intros Hc Hl Hreach Hcyc. rewrite filter_unfold. apply bind_raise.
  unfold json_dumps. f_equal.
  destruct (dumps_val (length h) h (VRef l)) as [d | e] eqn:E.
  - apply (dumps_val_sound h Hc) in E. by destruct (repr_no_cycle _ _ _ _ E Hreach Hcyc).
  - f_equal. eapply (dumps_val_raises h Hc); [| exact E]. by intros ? [= <-].
Qed.

Lemma self_store_closed : heap_closed [ODict [("self", VRef 0)]].
Proof.
  intros [| l] o Hl; [| done]. injection Hl as <-. split.
  - intros l' Hin. simpl in Hin. apply list_elem_of_singleton in Hin as [= ->].
    simpl. lia.
  - apply NoDup_singleton.
Qed.

Lemma self_store_cycle : points_to [ODict [("self", VRef 0)]] 0 0.
Proof. eapply points_to_intro; [reflexivity |]. simpl. by left. Qed.

Lemma filter_circular_witness :
  heap_closed [ODict [("self", VRef 0)]] ∧
  0 < length [ODict [("self", VRef 0)]] ∧
  rtc (points_to [ODict [("self", VRef 0)]]) 0 0 ∧
  tc (points_to [ODict [("self", VRef 0)]]) 0 0 ∧
  filter_schema_for_id_workflows (VRef 0) [ODict [("self", VRef 0)]]
    = ([ODict [("self", VRef 0)]], Raise ValueError).
Proof.
  split; [exact self_store_closed |]. split; [simpl; lia |].
  split; [apply rtc_refl |]. split; [apply tc_once, self_store_cycle |].
  exact (filter_circular _ 0 0 self_store_closed ltac:(simpl; lia)
           (rtc_refl _ _) (tc_once _ _ _ self_store_cycle)).
Defined.

(** * Further properties of the statistics *)

(** X9. The estimate grows with the text: a text no longer than another
    has no more tokens. *)
Theorem count_tokens_estimate_monotone (s t : string) :
  String.length s ≤ String.length t →
  (count_tokens_estimate s ≤ count_tokens_estimate t)%Z.
Proof.
  intros Hle. unfold count_tokens_estimate. apply Z.div_le_mono; lia.
Qed.

Lemma count_tokens_estimate_monotone_witness :
  String.length "ab" ≤ String.length "abcdefgh" ∧
  (count_tokens_estimate "ab" ≤ count_tokens_estimate "abcdefgh")%Z.
Proof.
  split; [simpl; lia |].
  apply (count_tokens_estimate_monotone "ab" "abcdefgh"). simpl. lia.
Defined.

Lemma string_length_append (s t : string) :
  String.length (String.append s t) = String.length s + String.length t.
Proof.
  induction s as [| a s IH]; [done |].
  change (S (String.length (String.append s t))
          = S (String.length s + String.length t)).
  by rewrite IH.
Qed.

(** X10. Estimating a text in two pieces loses at most one token: the
    estimate of a concatenation is the sum of the estimates, or one
    more. *)
Theorem count_tokens_estimate_append (s t : string) :
  (count_tokens_estimate s + count_tokens_estimate t
   ≤ count_tokens_estimate (String.append s t)
   ≤ count_tokens_estimate s + count_tokens_estimate t + 1)%Z.
Proof.
  unfold count_tokens_estimate. rewrite string_length_append, Nat2Z.inj_add.
  pose proof (Z.div_mod (Z.of_nat (String.length s)) 4 ltac:(lia)).
  pose proof (Z.mod_pos_bound (Z.of_nat (String.length s)) 4 ltac:(lia)).
  pose proof (Z.div_mod (Z.of_nat (String.length t)) 4 ltac:(lia)).
  pose proof (Z.mod_pos_bound (Z.of_nat (String.length t)) 4 ltac:(lia)).
  pose proof (Z.div_mod (Z.of_nat (String.length s) + Z.of_nat (String.length t)) 4
                ltac:(lia)).
  pose proof (Z.mod_pos_bound
                (Z.of_nat (String.length s) + Z.of_nat (String.length t)) 4
                ltac:(lia)).
  lia.
Qed.

Lemma percent_le_100 (a b : Z) :
  (0 < b)%Z → (a ≤ b)%Z →
  (inject_Z a / inject_Z b * inject_Z 100 <= inject_Z 100)%Q.
Proof.
  intros Hb Hab. destruct b as [| b | b]; try lia.
  unfold Qle, Qdiv, Qmult, Qinv, inject_Z. simpl. nia.
Qed.

Lemma percent_ge_0 (a b : Z) :
  (0 < b)%Z → (0 ≤ a)%Z →
  (0 <= inject_Z a / inject_Z b * inject_Z 100)%Q.
Proof.
  intros Hb Ha. destruct b as [| b | b]; try lia.
  unfold Qle, Qdiv, Qmult, Qinv, inject_Z. simpl. nia.
Qed.

Lemma percent_lt_0 (a b : Z) :
  (0 < b)%Z → (a < 0)%Z →
  (inject_Z a / inject_Z b * inject_Z 100 < 0)%Q.
Proof.
  intros Hb Ha. destruct b as [| b | b]; try lia.
  unfold Qlt, Qdiv, Qmult, Qinv, inject_Z. simpl. nia.
Qed.

(** X11. No percentage exceeds 100, whatever the two texts. *)
Theorem percentages_at_most_100 (original_json filtered_json : string) :
  ∃ r, reduction_statistics original_json filtered_json = Ok r ∧
    (reduction_percent r <= inject_Z 100)%Q ∧
    (size_reduction_percent r <= inject_Z 100)%Q.
Proof.
  eexists. split; [apply reduction_statistics_run |]. simpl.
  pose proof (count_tokens_estimate_nonneg original_json).
  pose proof (count_tokens_estimate_nonneg filtered_json).
  split.
  - destruct (Z.eqb_spec (count_tokens_estimate original_json) 0); [done |].
    apply percent_le_100; lia.
  - destruct (Z.eqb_spec (Z.of_nat (String.length original_json)) 0); [done |].
    apply percent_le_100; lia.
Qed.

(** X12. When the filtered text is no longer than the original, no
    reduction and no percentage is negative. *)
Theorem reductions_nonnegative (original_json filtered_json : string) :
  String.length filtered_json ≤ String.length original_json →
  ∃ r, reduction_statistics original_json filtered_json = Ok r ∧
    (0 ≤ reduction r)%Z ∧ (0 ≤ size_reduction r)%Z ∧
    (0 <= reduction_percent r)%Q ∧ (0 <= size_reduction_percent r)%Q.
Proof.
  intros Hle. eexists. split; [apply reduction_statistics_run |]. simpl.
  pose proof (count_tokens_estimate_monotone _ _ Hle).
  pose proof (count_tokens_estimate_nonneg original_json).
  split_and!; [lia | lia | |].
  - destruct (Z.eqb_spec (count_tokens_estimate original_json) 0); [done |].
    apply percent_ge_0; lia.
  - destruct (Z.eqb_spec (Z.of_nat (String.length original_json)) 0); [done |].
    apply percent_ge_0; lia.
Qed.

Lemma reductions_nonnegative_witness :
  String.length "abcd" ≤ String.length "abcdefgh" ∧
  ∃ r, reduction_statistics "abcdefgh" "abcd" = Ok r ∧
    (0 ≤ reduction r)%Z ∧ (0 ≤ size_reduction r)%Z ∧
    (0 <= reduction_percent r)%Q ∧ (0 <= size_reduction_percent r)%Q.
Proof.
  split; [simpl; lia |].
  apply (reductions_nonnegative "abcdefgh" "abcd"). simpl. lia.
Defined.

(** X13. Nothing is clamped: when the filtered text is longer than a
    non-empty original, the size reduction and its percentage are
    negative. *)
Theorem growth_is_negative (original_json filtered_json : string) :
  0 < String.length original_json →
  String.length original_json < String.length filtered_json →
  ∃ r, reduction_statistics original_json filtered_json = Ok r ∧
    (size_reduction r < 0)%Z ∧ (size_reduction_percent r < 0)%Q ∧
    (reduction r ≤ 0)%Z.
Proof.
  intros Hpos Hlt. eexists. split; [apply reduction_statistics_run |]. simpl.
  assert (Hle : String.length original_json ≤ String.length filtered_json) by lia.
  pose proof (count_tokens_estimate_monotone _ _ Hle).
  split_and!; [lia | | lia].
  destruct (Z.eqb_spec (Z.of_nat (String.length original_json)) 0); [lia |].
  apply percent_lt_0; lia.
Qed.

Lemma growth_is_negative_witness :
  0 < String.length "[]" ∧
  String.length "[]" < String.length "[1,2,3]" ∧
  ∃ r, reduction_statistics "[]" "[1,2,3]" = Ok r ∧
    (size_reduction r < 0)%Z ∧ (size_reduction_percent r < 0)%Q ∧
    (reduction r ≤ 0)%Z.
Proof.
  split; [simpl; lia |]. split; [simpl; lia |].
  apply (growth_is_negative "[]" "[1,2,3]"); simpl; lia.
Defined.

(** X14. The two reductions agree: four times the token reduction is
    within three characters of the size reduction. *)
Theorem reductions_agree (original_json filtered_json : string) :
  ∃ r, reduction_statistics original_json filtered_json = Ok r ∧
    (size_reduction r - 3 ≤ 4 * reduction r ≤ size_reduction r + 3)%Z.
Proof.
  eexists. split; [apply reduction_statistics_run |]. simpl.
  unfold count_tokens_estimate.
  pose proof (Z.div_mod (Z.of_nat (String.length original_json)) 4 ltac:(lia)).
  pose proof (Z.mod_pos_bound (Z.of_nat (String.length original_json)) 4 ltac:(lia)).
  pose proof (Z.div_mod (Z.of_nat (String.length filtered_json)) 4 ltac:(lia)).
  pose proof (Z.mod_pos_bound (Z.of_nat (String.length filtered_json)) 4 ltac:(lia)).
  lia.
Qed.

(** X15. Texts of the same length, as when the filter had nothing to
    change: every reduction is 0 and every percentage is 0. *)
Theorem same_length_no_reduction (original_json filtered_json : string) :
  String.length original_json = String.length filtered_json →
  ∃ r, reduction_statistics original_json filtered_json = Ok r ∧
    reduction r = 0%Z ∧ size_reduction r = 0%Z ∧
    (reduction_percent r == 0)%Q ∧ (size_reduction_percent r == 0)%Q.
Proof.
  intros Hlen. eexists. split; [apply reduction_statistics_run |]. simpl.
  unfold count_tokens_estimate. rewrite Hlen, !Z.sub_diag.
  split_and!; [done | done | |].
  - destruct (_ =? 0)%Z; [done |]. unfold Qeq, Qdiv, Qmult. simpl. lia.
  - destruct (_ =? 0)%Z; [done |]. unfold Qeq, Qdiv, Qmult. simpl. lia.
Qed.

Lemma same_length_no_reduction_witness :
  String.length "abcde" = String.length "vwxyz" ∧
  ∃ r, reduction_statistics "abcde" "vwxyz" = Ok r ∧
    reduction r = 0%Z ∧ size_reduction r = 0%Z ∧
    (reduction_percent r == 0)%Q ∧ (size_reduction_percent r == 0)%Q.
Proof.
  split; [reflexivity |].
  apply (same_length_no_reduction "abcde" "vwxyz"). reflexivity.
Defined.
